(** * Session authentication of the contact-book API

    A shallow embedding of [services/auth.py], [repository/users.py] and the
    token routes of [routes/auth.py], and the properties of token
    verification, refresh rotation, login and e-mail confirmation.

    Python exceptions are values of [exn]; a coroutine is a function from
    the world (the [users] table and the number of clock readings taken so
    far) to a result and the world it leaves behind.  The third-party
    libraries the service calls (python-jose for signed tokens, passlib
    for password hashes) are not part of the repository: they enter as the
    records [Jose] and [CryptContext].

    - A [datetime] is a number of microseconds; jose writes and compares
      the time claims in whole seconds.
    - [expires_delta], a float in the source, is a whole number of seconds.
    - Of jose's claim validation the checks of [iat], [exp] and [sub] are
      modelled, the registered claims a token of this service carries; a
      string under [iat] or [exp] is taken not to be a numeral.
    - A commit writes the row through; a request that raises afterwards
      does not undo it.
    - The contacts ([repository/contacts.py], [routes/contacts.py]) are
      functions on the rows of their table, in the order a query returns
      them; a commit that would break the unique constraint of the table
      is refused.  [offset] and [limit] are natural numbers.
    - A comparison of a column with a value is an equality of strings or
      of integers, and a null column equals no value. *)

From stdpp Require Import gmap strings list countable.
From Stdlib Require Import ZArith Ascii.

Local Open Scope Z_scope.

(** ** Values, payloads, exceptions *)

(** The JSON values a token payload holds. *)
Inductive value :=
| VStr (s : string)
| VInt (n : Z)
| VNone.

#[global] Instance value_eq_dec : EqDecision value.
Proof. solve_decision. Defined.

Definition value_to_sum (v : value) : string + Z + unit :=
  match v with
  | VStr s => inl (inl s)
  | VInt n => inl (inr n)
  | VNone => inr tt
  end.

Definition value_of_sum (x : string + Z + unit) : value :=
  match x with
  | inl (inl s) => VStr s
  | inl (inr n) => VInt n
  | inr _ => VNone
  end.

#[global] Instance value_countable : Countable value.
Proof.
  apply (inj_countable' value_to_sum value_of_sum).
  intros []; reflexivity.
Defined.

(** A payload is a Python [dict] with string keys. *)
Abbreviation claims := (gmap string value).

(** The exceptions that reach the handlers.  [ExpiredSignatureError] and
    [JWTClaimsError] are subclasses of jose's [JWTError]. *)
Inductive exn :=
| HTTPException (status_code : Z) (detail : string)
                (headers : list (string * string))
| JWTError
| ExpiredSignatureError
| JWTClaimsError
| KeyError (key : string)
| TypeError
| AttributeError (attr : string).

#[global] Instance exn_eq_dec : EqDecision exn.
Proof. solve_decision. Defined.

(** [isinstance(e, JWTError)], the test of every [except JWTError]. *)
Definition is_JWTError (e : exn) : bool :=
  match e with
  | JWTError | ExpiredSignatureError | JWTClaimsError => true
  | _ => false
  end.

Definition HTTP_400_BAD_REQUEST : Z := 400.
Definition HTTP_401_UNAUTHORIZED : Z := 401.
Definition HTTP_422_UNPROCESSABLE_ENTITY : Z := 422.

(** ** The data model ([database/models.py]) *)

Record User := mkUser {
  user_id : Z;
  user_username : string;
  user_email : string;
  user_password : string;
  user_created_at : Z;
  user_avatar : option string;
  user_refresh_token : option string;
  user_confirmed : bool
}.

#[global] Instance User_eq_dec : EqDecision User.
Proof. solve_decision. Defined.

Definition set_refresh_token (t : option string) (u : User) : User :=
  mkUser (user_id u) (user_username u) (user_email u) (user_password u)
         (user_created_at u) (user_avatar u) t (user_confirmed u).

Definition set_confirmed (b : bool) (u : User) : User :=
  mkUser (user_id u) (user_username u) (user_email u) (user_password u)
         (user_created_at u) (user_avatar u) (user_refresh_token u) b.

(** The world a request runs in: the rows of the [users] table, in the
    order a query scans them, and how many times the process has read
    [datetime.utcnow()]. *)
Record World := mkWorld {
  db : list User;
  reads : nat
}.

(** ** Coroutines: state and exceptions *)

Inductive Result (A : Type) :=
| Ok (a : A)
| Raise (e : exn).
Arguments Ok {A} a.
Arguments Raise {A} e.

Definition M (A : Type) : Type := World → Result A * World.

Definition ret {A} (a : A) : M A := λ w, (Ok a, w).

Definition bind {A B} (m : M A) (k : A → M B) : M B :=
  λ w, match m w with
       | (Ok a, w') => k a w'
       | (Raise e, w') => (Raise e, w')
       end.

Definition raise {A} (e : exn) : M A := λ w, (Raise e, w).

(** [try: body except C: handler], where [catches] is [isinstance(_, C)].
    What the body did to the world before it raised stays done. *)
Definition try_except {A} (body : M A) (catches : exn → bool)
    (handler : exn → M A) : M A :=
  λ w, match body w with
       | (Ok a, w') => (Ok a, w')
       | (Raise e, w') => if catches e then handler e w' else (Raise e, w')
       end.

Notation "'do' x <- m ; k" := (bind m (λ x, k))
  (at level 10, x name, m at level 100, k at level 200,
   format "'[v' 'do'  x  <-  m ; '/' k ']'").
Notation "'do_' m ; k" := (bind m (λ _, k))
  (at level 10, m at level 100, k at level 200,
   format "'[v' 'do_'  m ; '/' k ']'").

(** [d[key]] *)
Definition getitem (d : claims) (key : string) : M value :=
  match d !! key with
  | Some v => ret v
  | None => raise (KeyError key)
  end.

(** ** Time *)

(** A [datetime] is a count of microseconds since the epoch. *)
Definition timedelta_seconds (s : Z) : Z := s * 1000000.
Definition timedelta_minutes (m : Z) : Z := timedelta_seconds (m * 60).
Definition timedelta_days (d : Z) : Z := timedelta_seconds (d * 86400).

(** [timegm(t.utctimetuple())]: whole seconds, the microseconds dropped. *)
Definition timegm (t : Z) : Z := t / 1000000.

(** The NumericDate jose's [jwt.encode] writes for a [datetime] held under
    [exp] or [iat]. *)
Definition intdate (t : Z) : value := VInt (timegm t).

(** ** The libraries *)

(** python-jose's signing layer under the configured algorithm:
    [jws_sign payload key] is the compact token string, [jws_verify token
    key] the payload of a token whose structure and signature check under
    [key], and [None] where jose raises for either. *)
Record Jose := mkJose {
  jws_sign : claims → string → string;
  jws_verify : string → string → option claims
}.

(** Verifying what was signed under the same key gives the payload back. *)
Definition Jose_correct (J : Jose) : Prop :=
  ∀ c key, jws_verify J (jws_sign J c key) key = Some c.


(** passlib's [CryptContext(schemes=["bcrypt"])]. *)
Record CryptContext := mkCryptContext {
  pwd_hash : string → string;
  pwd_verify : string → string → bool
}.

(** ** The [users] table *)

(** The first row whose [email] column equals [email], if there is one:
    what [query(User).filter(User.email == email).first()] selects. *)
Definition find_user (email : value) (rows : list User) : option User :=
  List.find (λ u, bool_decide (VStr (user_email u) = email)) rows.

(** ** The service ([services/auth.py]) and the repository *)

Section Service.

Context (J : Jose) (P : CryptContext).

(** [Auth.SECRET_KEY]: fifty random letters drawn when the process starts. *)
Context (SECRET_KEY : string).

(** [clock k] is what the [k]-th call of [datetime.utcnow()] returns. *)
Context (clock : nat → Z).

Definition utcnow : M Z :=
  λ w, (Ok (clock (reads w)), mkWorld (db w) (S (reads w))).

(** *** python-jose's [jwt] module *)

(** [jwt.encode(claims, key, algorithm)]; the [datetime]s under [exp] and
    [iat] are already the [intdate]s the function turns them into. *)
Definition jwt_encode (c : claims) (key : string) : string :=
  jws_sign J c key.

(** [int(v)] inside a [try ... except ValueError: raise JWTError(...)]. *)
Definition as_int (v : value) : M Z :=
  match v with
  | VInt n => ret n
  | VStr _ => raise JWTError
  | VNone => raise TypeError
  end.

Definition validate_iat (c : claims) : M unit :=
  match c !! "iat" with
  | None => ret tt
  | Some v => do _ <- as_int v; ret tt
  end.

Definition validate_exp (c : claims) : M unit :=
  match c !! "exp" with
  | None => ret tt
  | Some v =>
      do exp <- as_int v;
      do now <- utcnow;
      if decide (exp < timegm now) then raise ExpiredSignatureError
      else ret tt
  end.

Definition validate_sub (c : claims) : M unit :=
  match c !! "sub" with
  | None | Some (VStr _) => ret tt
  | Some _ => raise JWTClaimsError
  end.

(** [jwt.decode(token, key, algorithms)]: the signature and the structure
    first, then the claims the tokens of this service carry, in jose's
    order. *)
Definition jwt_decode (token key : string) : M claims :=
  match jws_verify J token key with
  | None => raise JWTError
  | Some c =>
      do_ validate_iat c;
      do_ validate_exp c;
      do_ validate_sub c;
      ret c
  end.

(** *** [repository/users.py] *)

(** [db.query(User).filter(User.email == email).first()] *)
Definition get_user_by_email (email : value) : M (option User) :=
  λ w, (Ok (find_user email (db w)), w).

(** Assigning to a column of a persistent object and committing updates
    the row of that primary key. *)
Definition commit_row (user : User) (f : User → User) : M unit :=
  λ w, (Ok tt,
        mkWorld (List.map (λ u, if decide (user_id u = user_id user)
                                then f u else u) (db w))
                (reads w)).

Definition update_token (user : User) (token : option string) : M unit :=
  commit_row user (set_refresh_token token).

(** [user.confirmed = True] on the row of that e-mail; on [None] the
    assignment raises. *)
Definition repository_users_confirm_email (email : value) : M unit :=
  do user <- get_user_by_email email;
  match user with
  | Some u => commit_row u (set_confirmed true)
  | None => raise (AttributeError "confirmed")
  end.

(** *** [class Auth] *)

Definition verify_password (plain_password hashed_password : string) : bool :=
  pwd_verify P plain_password hashed_password.

Definition get_password_hash (password : string) : string :=
  pwd_hash P password.

(** [expires_delta] is a number of seconds; [None] and [0] are falsy. *)
Definition truthy (expires_delta : option Z) : bool :=
  match expires_delta with
  | Some d => negb (d =? 0)
  | None => false
  end.

Definition create_access_token (data : claims) (expires_delta : option Z)
    : M string :=
  do expire <-
    (if truthy expires_delta
     then do now <- utcnow; ret (now + timedelta_seconds (default 0 expires_delta))
     else do now <- utcnow; ret (now + timedelta_minutes 15));
  do iat <- utcnow;
  let to_encode :=
    <["scope" := VStr "access_token"]>
      (<["exp" := intdate expire]> (<["iat" := intdate iat]> data)) in
  ret (jwt_encode to_encode SECRET_KEY).

Definition create_refresh_token (data : claims) (expires_delta : option Z)
    : M string :=
  do expire <-
    (if truthy expires_delta
     then do now <- utcnow; ret (now + timedelta_seconds (default 0 expires_delta))
     else do now <- utcnow; ret (now + timedelta_days 7));
  do iat <- utcnow;
  let to_encode :=
    <["scope" := VStr "refresh_token"]>
      (<["exp" := intdate expire]> (<["iat" := intdate iat]> data)) in
  ret (jwt_encode to_encode SECRET_KEY).

Definition decode_refresh_token (refresh_token : string) : M value :=
  try_except
    (do payload <- jwt_decode refresh_token SECRET_KEY;
     do scope <- getitem payload "scope";
     if decide (scope = VStr "refresh_token")
     then getitem payload "sub"
     else raise (HTTPException HTTP_401_UNAUTHORIZED
                               "Invalid scope for token" []))
    is_JWTError
    (λ _, raise (HTTPException HTTP_401_UNAUTHORIZED
                               "Could not validate credentials" [])).

Definition credentials_exception : exn :=
  HTTPException HTTP_401_UNAUTHORIZED "Could not validate credentials"
                [("WWW-Authenticate", "Bearer")].

(** The [try] block of [get_current_user]: the subject of an access
    token. *)
Definition get_current_user_email (token : string) : M value :=
  try_except
    (do payload <- jwt_decode token SECRET_KEY;
     do scope <- getitem payload "scope";
     if decide (scope = VStr "access_token")
     then do email <- getitem payload "sub";
          if decide (email = VNone) then raise credentials_exception
          else ret email
     else raise credentials_exception)
    is_JWTError
    (λ _, raise credentials_exception).

Definition get_current_user (token : string) : M User :=
  do email <- get_current_user_email token;
  do user <- get_user_by_email email;
  match user with
  | None => raise credentials_exception
  | Some u => ret u
  end.

Definition create_email_token (data : claims) : M string :=
  do now <- utcnow;
  let expire := now + timedelta_days 7 in
  do iat <- utcnow;
  let to_encode := <["exp" := intdate expire]> (<["iat" := intdate iat]> data) in
  ret (jwt_encode to_encode SECRET_KEY).

Definition get_email_from_token (token : string) : M value :=
  try_except
    (do payload <- jwt_decode token SECRET_KEY;
     getitem payload "sub")
    is_JWTError
    (λ _, raise (HTTPException HTTP_422_UNPROCESSABLE_ENTITY
                               "Invalid token for email verification" [])).

(** *** The token routes ([routes/auth.py]) *)

Record TokenModel := mkTokenModel {
  access_token : string;
  refresh_token_field : string;
  token_type : string
}.

Definition login (username password : string) : M TokenModel :=
  do user <- get_user_by_email (VStr username);
  match user with
  | None =>
      raise (HTTPException HTTP_401_UNAUTHORIZED "Invalid email" [])
  | Some user =>
      if negb (user_confirmed user)
      then raise (HTTPException HTTP_401_UNAUTHORIZED "Email not confirmed" [])
      else if negb (verify_password password (user_password user))
      then raise (HTTPException HTTP_401_UNAUTHORIZED "Invalid password" [])
      else
        do access <- create_access_token {["sub" := VStr (user_email user)]} None;
        do refresh <- create_refresh_token {["sub" := VStr (user_email user)]} None;
        do_ update_token user (Some refresh);
        ret (mkTokenModel access refresh "bearer")
  end.

Definition refresh_token (token : string) : M TokenModel :=
  do email <- decode_refresh_token token;
  do user <- get_user_by_email email;
  match user with
  | None => raise (AttributeError "refresh_token")
  | Some user =>
      if decide (user_refresh_token user ≠ Some token)
      then
        do_ update_token user None;
        raise (HTTPException HTTP_401_UNAUTHORIZED "Invalid refresh token" [])
      else
        do access <- create_access_token {["sub" := email]} None;
        do refresh <- create_refresh_token {["sub" := email]} None;
        do_ update_token user (Some refresh);
        ret (mkTokenModel access refresh "bearer")
  end.

(** The route answers with a [{"message": ...}] object; its message is
    the result. *)
Definition confirm_email (token : string) : M string :=
  do email <- get_email_from_token token;
  do user <- get_user_by_email email;
  match user with
  | None =>
      raise (HTTPException HTTP_400_BAD_REQUEST "Verification error" [])
  | Some user =>
      if user_confirmed user
      then ret "Your email is already confirmed"
      else
        do_ repository_users_confirm_email email;
        ret "Email confirmed"
  end.

End Service.

(** [n] requests of the same kind, one after the other: each starts in the
    world the one before left, whether that one returned or raised. *)
Fixpoint repeat_request {A} (n : nat) (request : M A) (w : World)
    : list (Result A) * World :=
  match n with
  | O => ([], w)
  | S n =>
      let '(r, w') := request w in
      let '(rs, w'') := repeat_request n request w' in
      (r :: rs, w'')
  end.

(** ** Signing up, the confirmation mail, avatars *)

Definition HTTP_409_CONFLICT : Z := 409.

(** [schemas.UserModel], the body of a signup. *)
Record UserModel := mkUserModel {
  body_username : string;
  body_email : string;
  body_password : string
}.

(** What the handlers leave to others: libgravatar's image URL for an
    address ([None] where it raises), and the primary key and the
    [func.now()] the database gives a row inserted into the table. *)
Record Backend := mkBackend {
  gravatar_image : string → option string;
  serial : list User → Z;
  sql_now : list User → Z
}.

(** A commit of an insert: it goes through, or the database refuses it
    and SQLAlchemy raises [IntegrityError], here for the unique [email]. *)
Inductive commit (A : Type) :=
| Committed (a : A)
| IntegrityError (constraint : string).
Arguments Committed {A} a.
Arguments IntegrityError {A} constraint.

(** The background task a handler queues: [send_email] and its
    arguments. *)
Record EmailTask := mkEmailTask {
  task_email : string;
  task_username : string;
  task_host : string
}.

(** The [MessageSchema] handed to FastMail. *)
Record MessageSchema := mkMessageSchema {
  message_subject : string;
  message_recipients : list string;
  template_host : string;
  template_username : string;
  template_token : string
}.

Definition set_avatar (a : option string) (u : User) : User :=
  mkUser (user_id u) (user_username u) (user_email u) (user_password u)
         (user_created_at u) a (user_refresh_token u) (user_confirmed u).

Section Accounts.

Context (J : Jose) (P : CryptContext) (B : Backend).
Context (SECRET_KEY : string) (clock : nat → Z).

(** [repository/users.py]: the row gets the columns of the body and the
    avatar; [refresh_token] is null and [confirmed] takes its default. *)
Definition create_user (body : UserModel) : M (commit User) :=
  λ w,
    let avatar := gravatar_image B (body_email body) in
    let new_user :=
      mkUser (serial B (db w)) (body_username body) (body_email body)
             (body_password body) (sql_now B (db w)) avatar None false in
    if bool_decide (body_email body ∈ List.map user_email (db w))
    then (Ok (IntegrityError "users.email"), w)
    else (Ok (Committed new_user), mkWorld (db w ++ [new_user]) (reads w)).

Definition update_avatar (email : value) (url : string) : M User :=
  do user <- get_user_by_email email;
  match user with
  | None => raise (AttributeError "avatar")
  | Some u =>
      do_ commit_row u (set_avatar (Some url));
      ret (set_avatar (Some url) u)
  end.

(** [services/email.py]: the message that goes to FastMail; a failure of
    the delivery is printed and goes no further. *)
Definition send_email (email username host : string) : M MessageSchema :=
  do token_verification <-
    create_email_token J SECRET_KEY clock {["sub" := VStr email]};
  ret (mkMessageSchema "Confirm your email " [email] host username
                       token_verification).

(** [routes/auth.py]: the user created, the detail of the answer and the
    task queued. *)
Definition signup (body : UserModel) (base_url : string)
    : M (commit (User * string * EmailTask)) :=
  do exist_user <- get_user_by_email (VStr (body_email body));
  match exist_user with
  | Some _ =>
      raise (HTTPException HTTP_409_CONFLICT "Account already exists" [])
  | None =>
      let body :=
        mkUserModel (body_username body) (body_email body)
                    (get_password_hash P (body_password body)) in
      do created <- create_user body;
      match created with
      | IntegrityError c => ret (IntegrityError c)
      | Committed new_user =>
          ret (Committed
                 (new_user,
                  "User successfully created. Check your email for confirmation.",
                  mkEmailTask (user_email new_user) (user_username new_user)
                              base_url))
      end
  end.

(** The message of the answer and the task queued, if one is. *)
Definition request_email (email base_url : string)
    : M (string * option EmailTask) :=
  do user <- get_user_by_email (VStr email);
  match user with
  | None => raise (AttributeError "confirmed")
  | Some user =>
      if user_confirmed user
      then ret ("Your email is already confirmed", None)
      else ret ("Check your email for confirmation.",
                Some (mkEmailTask (user_email user) (user_username user)
                                  base_url))
  end.

(** Running a queued task. *)
Definition run_task (t : EmailTask) : M MessageSchema :=
  send_email (task_email t) (task_username t) (task_host t).

End Accounts.

(** ** What an issued token holds *)

(** The payload [create_access_token] and [create_refresh_token] sign:
    [data] with [iat], [exp] and [scope] written over it. *)
Definition issued_claims (scope : string) (data : claims) (expire iat : Z)
    : claims :=
  <["scope" := VStr scope]>
    (<["exp" := intdate expire]> (<["iat" := intdate iat]> data)).

(** The [expire] they compute from the clock reading [now]. *)
Definition expiry (expires_delta : option Z) (lifetime now : Z) : Z :=
  if truthy expires_delta
  then now + timedelta_seconds (default 0 expires_delta)
  else now + lifetime.

(** ** Tokens by the reading at which they are issued *)

(** The token [create_access_token data None] returns when the clock has
    been read [r] times before, and the same for the refresh token. *)
Definition access_token_at (J : Jose) (key : string) (clock : nat → Z)
    (data : claims) (r : nat) : string :=
  jws_sign J (issued_claims "access_token" data
                (clock r + timedelta_minutes 15) (clock (S r))) key.

Definition refresh_token_at (J : Jose) (key : string) (clock : nat → Z)
    (data : claims) (r : nat) : string :=
  jws_sign J (issued_claims "refresh_token" data
                (clock r + timedelta_days 7) (clock (S r))) key.

(** The columns no token route writes. *)
Definition credentials (u : User)
    : Z * string * string * string * Z * option string :=
  (user_id u, user_username u, user_email u, user_password u,
   user_created_at u, user_avatar u).

(** [rows'] is [rows] with at most the [refresh_token] and [confirmed]
    columns written, and no [confirmed] flag taken back. *)
Definition same_accounts (rows rows' : list User) : Prop :=
  Forall2 (λ u u', credentials u' = credentials u ∧
                   (user_confirmed u = true → user_confirmed u' = true))
          rows rows'.

(** [rows'] is [rows] but for the rows of primary key [k]. *)
Definition writes_only_key (k : Z) (rows rows' : list User) : Prop :=
  Forall2 (λ u u', user_id u ≠ k → u' = u) rows rows'.

(** The row a signup inserts for [body] into [rows]. *)
Definition new_account (P : CryptContext) (B : Backend) (body : UserModel)
    (rows : list User) : User :=
  mkUser (serial B rows) (body_username body) (body_email body)
         (get_password_hash P (body_password body)) (sql_now B rows)
         (gravatar_image B (body_email body)) None false.

(** ** Contacts ([repository/contacts.py], [routes/contacts.py]) *)

Definition HTTP_404_NOT_FOUND : Z := 404.

(** A [datetime.date]. *)
Record date := mkDate {
  year : Z;
  month : Z;
  day : Z
}.

#[global] Instance date_eq_dec : EqDecision date.
Proof. solve_decision. Defined.

Definition is_leap (y : Z) : bool :=
  (y mod 4 =? 0) && (negb (y mod 100 =? 0) || (y mod 400 =? 0)).

Definition days_in_month (y m : Z) : Z :=
  if m =? 2 then (if is_leap y then 29 else 28)
  else if (m =? 4) || (m =? 6) || (m =? 9) || (m =? 11) then 30
  else 31.

Definition next_day (d : date) : date :=
  if day d <? days_in_month (year d) (month d)
  then mkDate (year d) (month d) (day d + 1)
  else if month d <? 12 then mkDate (year d) (month d + 1) 1
  else mkDate (year d + 1) 1 1.

(** [d + timedelta(days=n)] *)
Definition add_days (n : nat) (d : date) : date := Nat.iter n next_day d.

(** A calendar date. *)
Definition valid_date (d : date) : Prop :=
  1 ≤ month d ≤ 12 ∧ 1 ≤ day d ≤ days_in_month (year d) (month d).

(** A row of [contacts]; the nullable columns are options. *)
Record Contact := mkContact {
  contact_id : Z;
  contact_first_name : string;
  contact_last_name : string;
  contact_email : option string;
  contact_phone : string;
  contact_date_of_birth : option date;
  contact_additional_data : option string;
  contact_user_id : option Z
}.

#[global] Instance Contact_eq_dec : EqDecision Contact.
Proof. solve_decision. Defined.

(** [schemas.ContactBase] *)
Record ContactBase := mkContactBase {
  base_first_name : string;
  base_last_name : string;
  base_email : string;
  base_phone : string;
  base_date_of_birth : date;
  base_additional_data : option string
}.

(** [UniqueConstraint("email", "phone", "user_id")]: the rows in which
    none of the three is null have pairwise different triples. *)
Definition contact_key (c : Contact) : option (string * string * Z) :=
  match contact_email c, contact_user_id c with
  | Some e, Some uid => Some (e, contact_phone c, uid)
  | _, _ => None
  end.

Definition unique_contact_user (rows : list Contact) : Prop :=
  NoDup (omap contact_key rows).

(** [Contact.user_id == user.id] *)
Definition owned_by (user : User) (c : Contact) : bool :=
  bool_decide (contact_user_id c = Some (user_id user)).

Definition write_contact (body : ContactBase) (c : Contact) : Contact :=
  mkContact (contact_id c) (base_first_name body) (base_last_name body)
            (Some (base_email body)) (base_phone body)
            (Some (base_date_of_birth body)) (base_additional_data body)
            (contact_user_id c).

(** What a request for contacts with these filters selects. *)
Definition selects (first_name last_name email : option string) (user : User)
    (c : Contact) : bool :=
  owned_by user c &&
  match first_name with
  | Some f => bool_decide (contact_first_name c = f)
  | None => true
  end &&
  match last_name with
  | Some l => bool_decide (contact_last_name c = l)
  | None => true
  end &&
  match email with
  | Some e => bool_decide (contact_email c = Some e)
  | None => true
  end.

(** The test of [birthdays_in_7_days] on a date of birth. *)
Definition in_birthday_window (today_date end_date b : date) : bool :=
  if month today_date =? month end_date
  then (month b =? month today_date) && (day today_date <=? day b)
       && (day b <=? day end_date)
  else ((month b =? month end_date) && (day b <=? day end_date))
       || ((month b =? month today_date) && (day today_date <=? day b)).

(** The month after the month of [d], on its day [n]. *)
Definition month_after (d : date) (n : Z) : date :=
  if month d <? 12 then mkDate (year d) (month d + 1) n
  else mkDate (year d + 1) 1 n.

Module repository_contacts.

(** The repository on the rows of [contacts], in the order a query
    returns them; [skip] and [limit] are not negative. *)
Definition get_contacts (first_name last_name email : option string)
    (skip limit : nat) (user : User) (rows : list Contact) : list Contact :=
  let query := List.filter (owned_by user) rows in
  let filter_conditions : list (Contact → bool) :=
    (match first_name with
     | Some f => [λ c, bool_decide (contact_first_name c = f)]
     | None => []
     end) ++
    (match last_name with
     | Some l => [λ c, bool_decide (contact_last_name c = l)]
     | None => []
     end) ++
    (match email with
     | Some e => [λ c, bool_decide (contact_email c = Some e)]
     | None => []
     end) in
  let query :=
    match filter_conditions with
    | [] => query
    | _ => List.filter (λ c, forallb (λ cond, cond c) filter_conditions) query
    end in
  take limit (drop skip query).

Definition get_contact (id : Z) (user : User) (rows : list Contact)
    : option Contact :=
  List.find (λ c, bool_decide (contact_id c = id) && owned_by user c) rows.

(** The new row takes the key [new_id] the database gives it; the commit
    is refused where the table would break the unique constraint. *)
Definition create_contact (new_id : Z) (body : ContactBase) (user : User)
    (rows : list Contact) : commit Contact * list Contact :=
  let contact :=
    mkContact new_id (base_first_name body) (base_last_name body)
              (Some (base_email body)) (base_phone body)
              (Some (base_date_of_birth body)) (base_additional_data body)
              (Some (user_id user)) in
  if decide (unique_contact_user (rows ++ [contact]))
  then (Committed contact, rows ++ [contact])
  else (IntegrityError "unique_contact_user", rows).

Definition check_contact (email phone : string) (user : User)
    (rows : list Contact) : option Contact :=
  List.find (λ c, owned_by user c &&
                  (bool_decide (contact_email c = Some email) ||
                   bool_decide (contact_phone c = phone))) rows.

Definition update_contact (id : Z) (body : ContactBase) (user : User)
    (rows : list Contact) : commit (option Contact) * list Contact :=
  match get_contact id user rows with
  | None => (Committed None, rows)
  | Some contact =>
      let rows' :=
        List.map (λ c, if decide (contact_id c = contact_id contact)
                       then write_contact body c else c) rows in
      if decide (unique_contact_user rows')
      then (Committed (Some (write_contact body contact)), rows')
      else (IntegrityError "unique_contact_user", rows)
  end.

Definition remove_contact (id : Z) (user : User) (rows : list Contact)
    : option Contact * list Contact :=
  match get_contact id user rows with
  | None => (None, rows)
  | Some contact =>
      (Some contact,
       List.filter (λ c, negb (bool_decide (contact_id c = contact_id contact)))
                   rows)
  end.

(** [today_date] is the reading [datetime.now().date()]. *)
Definition birthdays_in_7_days (today_date : date) (skip limit : nat)
    (user : User) (rows : list Contact) : list Contact :=
  let end_date := add_days 7 today_date in
  let in_window (c : Contact) : bool :=
    match contact_date_of_birth c with
    | None => false
    | Some b => in_birthday_window today_date end_date b
    end in
  take limit (drop skip (List.filter (λ c, owned_by user c && in_window c) rows)).

End repository_contacts.

Module routes_contacts.

(** The handlers, called with the [current_user] their dependency
    resolved (and [create_contact] once its rate limiter has let the
    request through); [new_id] is the key the database gives the row. *)
Definition read_contacts_with_birthday (today_date : date) (skip limit : nat)
    (current_user : User) (rows : list Contact) : list Contact :=
  repository_contacts.birthdays_in_7_days today_date skip limit current_user
                                          rows.

Definition read_contacts (first_name last_name email : option string)
    (skip limit : nat) (current_user : User) (rows : list Contact)
    : list Contact :=
  repository_contacts.get_contacts first_name last_name email skip limit
                                   current_user rows.

Definition read_contact (id : Z) (current_user : User) (rows : list Contact)
    : Result Contact :=
  match repository_contacts.get_contact id current_user rows with
  | None => Raise (HTTPException HTTP_404_NOT_FOUND "Contact not found" [])
  | Some contact => Ok contact
  end.

Definition create_contact (new_id : Z) (body : ContactBase)
    (current_user : User) (rows : list Contact)
    : Result (commit Contact) * list Contact :=
  match repository_contacts.check_contact (base_email body) (base_phone body)
                                          current_user rows with
  | Some _ =>
      (Raise (HTTPException HTTP_409_CONFLICT "Email or phone number exists." []),
       rows)
  | None =>
      let '(r, rows') :=
        repository_contacts.create_contact new_id body current_user rows in
      (Ok r, rows')
  end.

Definition update_contact (body : ContactBase) (id : Z) (current_user : User)
    (rows : list Contact) : Result (commit Contact) * list Contact :=
  match repository_contacts.update_contact id body current_user rows with
  | (IntegrityError c, rows') => (Ok (IntegrityError c), rows')
  | (Committed None, rows') =>
      (Raise (HTTPException HTTP_404_NOT_FOUND "Contact not found" []), rows')
  | (Committed (Some contact), rows') => (Ok (Committed contact), rows')
  end.

Definition remove_contact (id : Z) (current_user : User)
    (rows : list Contact) : Result Contact * list Contact :=
  match repository_contacts.remove_contact id current_user rows with
  | (None, rows') =>
      (Raise (HTTPException HTTP_404_NOT_FOUND "Contact not found" []), rows')
  | (Some contact, rows') => (Ok contact, rows')
  end.

End routes_contacts.

(** ** A symbolic instance of the libraries

    A token is the binary numeral of the code of the pair (payload, key):
    it verifies under exactly the key it was signed with.  The instance
    shows that the assumptions made of jose below can be met, and serves to
    run the service on concrete requests. *)

Fixpoint pos_to_bits (p : positive) : string :=
  match p with
  | xH => EmptyString
  | xO p => String "0"%char (pos_to_bits p)
  | xI p => String "1"%char (pos_to_bits p)
  end.

Fixpoint bits_to_pos (s : string) : option positive :=
  match s with
  | EmptyString => Some xH
  | String a s =>
      if Ascii.eqb a "0"%char then xO <$> bits_to_pos s
      else if Ascii.eqb a "1"%char then xI <$> bits_to_pos s
      else None
  end.

Definition symbolic_sign (c : claims) (key : string) : string :=
  pos_to_bits (encode (c, key)).

Definition symbolic_verify (token key : string) : option claims :=
  match bits_to_pos token ≫= decode with
  | Some (c, key') => if decide (key' = key) then Some c else None
  | None => None
  end.

Definition symbolic_jose : Jose := mkJose symbolic_sign symbolic_verify.

Definition plain_crypt : CryptContext :=
  mkCryptContext (λ p, "bcrypt:" +:+ p)
                 (λ p h, bool_decide (h = "bcrypt:" +:+ p)).

(** ** Concrete requests *)

Definition example_key : string :=
  "abcdefghijklmnopqrstuvwxyzABCDEFGHIJKLMNOPQRSTUVWX".

Definition other_key : string :=
  "ZYXWVUTSRQPONMLKJIHGFEDCBAzyxwvutsrqponmlkjihgfedc".

(** A clock that moves a microsecond per reading, within one second. *)
Definition same_second_clock (k : nat) : Z := 1700000000000000 + Z.of_nat k.

(** A clock that moves an hour per reading. *)
Definition hourly_clock (k : nat) : Z :=
  1700000000000000 + timedelta_minutes 60 * Z.of_nat k.

Definition alice_data : claims := {["sub" := VStr "a@example.com"]}.

(** The refresh token a login of alice at 1700000000 s returns. *)
Definition alice_refresh_claims : claims :=
  issued_claims "refresh_token" alice_data
                (1700000000000000 + timedelta_days 7) 1700000000000001.

Definition alice_refresh : string :=
  jws_sign symbolic_jose alice_refresh_claims example_key.

(** The access token of the same login. *)
Definition alice_access_claims : claims :=
  issued_claims "access_token" alice_data
                (1700000000000000 + timedelta_minutes 15) 1700000000000001.

Definition alice_access : string :=
  jws_sign symbolic_jose alice_access_claims example_key.

(** Tokens of alice issued eight days earlier, and long expired. *)
Definition expired_refresh_claims : claims :=
  issued_claims "refresh_token" alice_data
                (1700000000000000 - timedelta_days 1)
                (1700000000000000 - timedelta_days 8).

Definition expired_refresh : string :=
  jws_sign symbolic_jose expired_refresh_claims example_key.

Definition expired_access_claims : claims :=
  issued_claims "access_token" alice_data
                (1700000000000000 - timedelta_days 1)
                (1700000000000000 - timedelta_days 8).

Definition expired_access : string :=
  jws_sign symbolic_jose expired_access_claims example_key.

(** alice's refresh token, signed under another secret. *)
Definition forged_refresh : string :=
  jws_sign symbolic_jose alice_refresh_claims other_key.

(** alice's refresh token with its first character altered. *)
Definition altered_refresh : string :=
  match alice_refresh with
  | String _ rest => String "x"%char rest
  | EmptyString => EmptyString
  end.




(** The refresh token of a login of alice an hour before the one that
    returned [alice_refresh]: correctly signed, not expired, and no
    longer the token persisted for her. *)
Definition earlier_refresh_claims : claims :=
  issued_claims "refresh_token" alice_data
                (1700000000000000 - timedelta_minutes 60 + timedelta_days 7)
                (1700000000000001 - timedelta_minutes 60).

Definition earlier_refresh : string :=
  jws_sign symbolic_jose earlier_refresh_claims example_key.

(** An e-mail verification token of alice. *)
Definition alice_email_claims : claims :=
  <["exp" := intdate (1700000000000000 + timedelta_days 7)]>
    (<["iat" := intdate 1700000000000001]> alice_data).

Definition alice_email_token : string :=
  jws_sign symbolic_jose alice_email_claims example_key.

(** A refresh token for a subject that has no account. *)
Definition nobody_refresh_claims : claims :=
  issued_claims "refresh_token" {["sub" := VStr "n@example.com"]}
                (1700000000000000 + timedelta_days 7) 1700000000000001.

Definition nobody_refresh : string :=
  jws_sign symbolic_jose nobody_refresh_claims example_key.

(** alice is confirmed and holds [alice_refresh]; bob is not confirmed. *)
Definition alice : User :=
  mkUser 1 "alice" "a@example.com" "bcrypt:secret" 0 None
         (Some alice_refresh) true.

Definition bob : User :=
  mkUser 2 "bobby" "b@example.com" "bcrypt:hunter2" 0 None None false.

Definition example_world : World := mkWorld [alice; bob] 0.

(** alice after a logout: no refresh token is persisted for her. *)
Definition alice_logged_out : User := set_refresh_token None alice.

Definition logged_out_world : World := mkWorld [alice_logged_out; bob] 0.

(** ** More concrete requests *)

(** An access token for a subject that has no account. *)
Definition nobody_access_claims : claims :=
  issued_claims "access_token" {["sub" := VStr "n@example.com"]}
                (1700000000000000 + timedelta_minutes 15) 1700000000000001.

Definition nobody_access : string :=
  jws_sign symbolic_jose nobody_access_claims example_key.

(** The e-mail tokens [create_email_token] issues in that second for bob
    and for a subject without account. *)
Definition bob_email_claims : claims :=
  <["exp" := intdate (1700000000000000 + timedelta_days 7)]>
    (<["iat" := intdate 1700000000000001]> {["sub" := VStr "b@example.com"]}).

Definition bob_email_token : string :=
  jws_sign symbolic_jose bob_email_claims example_key.

Definition nobody_email_claims : claims :=
  <["exp" := intdate (1700000000000000 + timedelta_days 7)]>
    (<["iat" := intdate 1700000000000001]> {["sub" := VStr "n@example.com"]}).

Definition nobody_email_token : string :=
  jws_sign symbolic_jose nobody_email_claims example_key.

(** A database that numbers the rows from the highest key on. *)
Definition example_backend : Backend :=
  mkBackend (λ email, Some ("https://www.gravatar.com/avatar/" +:+ email))
            (λ rows, 1 + foldr Z.max 0 (List.map user_id rows))
            (λ _, 1700000000).

Definition carol_body : UserModel :=
  mkUserModel "carol" "c@example.com" "secret1".

(** Two contacts of alice and one of bob. *)
Definition ann : Contact :=
  mkContact 10 "Ann" "Lee" (Some "ann@example.com") "5550001"
            (Some (mkDate 1990 1 2)) None (Some 1).

Definition ben : Contact :=
  mkContact 11 "Ben" "Lee" (Some "ben@example.com") "5550002"
            (Some (mkDate 1985 12 30)) (Some "colleague") (Some 1).

Definition cyd : Contact :=
  mkContact 12 "Cyd" "Ray" None "5550003" None None (Some 2).

Definition example_contacts : list Contact := [ann; ben; cyd].

Definition ann_body : ContactBase :=
  mkContactBase "Ann" "Lee-Ray" "ann@example.org" "5550009"
                (mkDate 1990 1 2) (Some "moved").

(** A body with the e-mail and the phone of ben. *)
Definition ben_body : ContactBase :=
  mkContactBase "Benjamin" "Lee" "ben@example.com" "5550002"
                (mkDate 1985 12 30) None.

Definition dee_body : ContactBase :=
  mkContactBase "Dee" "Poe" "dee@example.com" "5550004"
                (mkDate 2001 7 14) None.

(** ** Properties *)

Section Properties.

Context (J : Jose) (P : CryptContext) (SECRET_KEY : string) (clock : nat → Z).


Ltac run :=
  repeat (first
    [ progress simplify_eq/=
    | progress intros
    | progress unfold bind, ret, raise, try_except, getitem, utcnow in *
    | match goal with
      | H1 : ?x = Some _, H2 : ?x = _ |- _ => rewrite H1 in H2
      end
    | case_match ]).

(** *** The codec *)

Lemma jwt_decode_db token key w :
  db (jwt_decode J clock token key w).2 = db w.
Proof.
  unfold jwt_decode, validate_iat, validate_exp, validate_sub, as_int.
  run; done.
Qed.

Lemma jwt_decode_Ok token key w c w' :
  jwt_decode J clock token key w = (Ok c, w') →
  jws_verify J token key = Some c ∧ db w' = db w.
Proof.
  intros H. split; [|rewrite <-(jwt_decode_db token key w), H; reflexivity].
  revert H. unfold jwt_decode, validate_iat, validate_exp, validate_sub, as_int.
  run; done.
Qed.

(** What a successful decode leaves of the world: one more clock reading
    when the payload carries [exp], none otherwise. *)
Lemma jwt_decode_reads token key w c w' :
  jwt_decode J clock token key w = (Ok c, w') →
  (reads w ≤ reads w' ≤ S (reads w))%nat.
Proof.
  unfold jwt_decode, validate_iat, validate_exp, validate_sub, as_int.
  run; lia.
Qed.

(** *** The store *)

Lemma find_user_map (g : User → User) email rows :
  (∀ u, user_email (g u) = user_email u) →
  find_user email (List.map g rows) = g <$> find_user email rows.
Proof.
  intros Hg. unfold find_user.
  induction rows as [|u rows IH]; simpl; [reflexivity|].
  rewrite Hg. destruct (bool_decide _); [reflexivity | exact IH].
Qed.

Lemma find_user_email email rows u :
  find_user email rows = Some u → VStr (user_email u) = email.
Proof.
  unfold find_user. intros H. apply List.find_some in H as [_ H].
  apply bool_decide_eq_true in H. exact H.
Qed.

Lemma find_user_commit_row user f email w :
  (∀ u, user_email (f u) = user_email u) →
  find_user email (db w) = Some user →
  find_user email (db (commit_row user f w).2) = Some (f user).
Proof.
  intros Hf Hfind. simpl. rewrite find_user_map.
  - rewrite Hfind. simpl. rewrite decide_True; reflexivity.
  - intros u. destruct (decide _); [apply Hf | reflexivity].
Qed.

(** *** Verification *)

Lemma decode_refresh_token_Ok token w c w' email :
  jwt_decode J clock token SECRET_KEY w = (Ok c, w') →
  c !! "scope" = Some (VStr "refresh_token") →
  c !! "sub" = Some email →
  decode_refresh_token J SECRET_KEY clock token w = (Ok email, w').
Proof.
  intros Hdec Hscope Hsub. unfold decode_refresh_token, try_except, bind.
  rewrite Hdec. unfold getitem. rewrite Hscope. simpl.
  rewrite Hsub. reflexivity.
Qed.

(** What the codec raises, and what the two verifications make of it. *)
Lemma jwt_decode_rejected token key w :
  jws_verify J token key = None →
  jwt_decode J clock token key w = (Raise JWTError, w).
Proof. intros Hbad. unfold jwt_decode. rewrite Hbad. reflexivity. Qed.

Lemma jwt_decode_expired token key c iat exp w :
  jws_verify J token key = Some c →
  c !! "iat" = Some (VInt iat) →
  c !! "exp" = Some (VInt exp) →
  exp < timegm (clock (reads w)) →
  jwt_decode J clock token key w =
    (Raise ExpiredSignatureError, mkWorld (db w) (S (reads w))).
Proof.
  intros Hver Hiat Hexp Hpast.
  unfold jwt_decode, validate_iat, validate_exp, bind. rewrite Hver, Hiat, Hexp.
  simpl. unfold bind, utcnow. simpl. rewrite decide_True by exact Hpast.
  reflexivity.
Qed.

Lemma decode_refresh_token_JWTError token w e w' :
  jwt_decode J clock token SECRET_KEY w = (Raise e, w') →
  is_JWTError e = true →
  decode_refresh_token J SECRET_KEY clock token w =
    (Raise (HTTPException 401 "Could not validate credentials" []), w').
Proof.
  intros Hdec He. unfold decode_refresh_token, try_except, bind.
  rewrite Hdec, He. reflexivity.
Qed.

Lemma get_current_user_JWTError token w e w' :
  jwt_decode J clock token SECRET_KEY w = (Raise e, w') →
  is_JWTError e = true →
  get_current_user J SECRET_KEY clock token w = (Raise credentials_exception, w').
Proof.
  intros Hdec He.
  unfold get_current_user, get_current_user_email, try_except, bind.
  rewrite Hdec, He. reflexivity.
Qed.



(** C9: the e-mail verification has no purpose check.  For a token that
    carries a [sub] claim, [get_email_from_token] returns that claim
    whenever the codec accepts the token, whatever its [scope] is or
    whether it has one, and it fails only where the codec fails. *)
Theorem get_email_from_token_ignores_scope token w :
  (∀ c, jws_verify J token SECRET_KEY = Some c → is_Some (c !! "sub")) →
  (∀ c w', jwt_decode J clock token SECRET_KEY w = (Ok c, w') →
     ∃ email, c !! "sub" = Some email ∧
              get_email_from_token J SECRET_KEY clock token w = (Ok email, w')) ∧
  (∀ e w', get_email_from_token J SECRET_KEY clock token w = (Raise e, w') →
     ∃ e', jwt_decode J clock token SECRET_KEY w = (Raise e', w')).
Proof.
  intros Hsub. split.
  - intros c w' Hdec.
    destruct (jwt_decode_Ok _ _ _ _ _ Hdec) as [Hver _].
    destruct (Hsub c Hver) as [email Hemail]. exists email. split; [exact Hemail|].
    unfold get_email_from_token, try_except, bind. rewrite Hdec.
    unfold getitem. rewrite Hemail. reflexivity.
  - intros e w'. unfold get_email_from_token, try_except, bind.
    destruct (jwt_decode J clock token SECRET_KEY w) as [[c|e'] w1] eqn:Hdec.
    + destruct (jwt_decode_Ok _ _ _ _ _ Hdec) as [Hver _].
      destruct (Hsub c Hver) as [email Hemail].
      unfold getitem. rewrite Hemail. intros [=].
    + destruct (is_JWTError e'); intros [= <- <-]; eauto.
Qed.

(** C2, as the code has it: a correctly signed, well-formed token whose
    [exp] has passed makes the codec raise [ExpiredSignatureError], and
    both verifications turn that into the answer "Could not validate
    credentials" they give for a token whose signature fails; the expired
    kind does not leave the codec. *)
Theorem expired_token_answered_as_invalid token c iat exp w :
  jws_verify J token SECRET_KEY = Some c →
  c !! "iat" = Some (VInt iat) →
  c !! "exp" = Some (VInt exp) →
  exp < timegm (clock (reads w)) →
  let w' := mkWorld (db w) (S (reads w)) in
  jwt_decode J clock token SECRET_KEY w = (Raise ExpiredSignatureError, w') ∧
  decode_refresh_token J SECRET_KEY clock token w =
    (Raise (HTTPException 401 "Could not validate credentials" []), w') ∧
  get_current_user J SECRET_KEY clock token w = (Raise credentials_exception, w') ∧
  ∀ forged, jws_verify J forged SECRET_KEY = None →
    (decode_refresh_token J SECRET_KEY clock forged w).1 =
    (decode_refresh_token J SECRET_KEY clock token w).1 ∧
    (get_current_user J SECRET_KEY clock forged w).1 =
    (get_current_user J SECRET_KEY clock token w).1.
Proof.
  intros Hver Hiat Hexp Hpast w'.
  pose proof (jwt_decode_expired token SECRET_KEY c iat exp w Hver Hiat Hexp Hpast)
    as Hdec.
  pose proof (decode_refresh_token_JWTError _ _ _ _ Hdec eq_refl) as Hrt.
  pose proof (get_current_user_JWTError _ _ _ _ Hdec eq_refl) as Hcu.
  split; [exact Hdec|]. split; [exact Hrt|]. split; [exact Hcu|].
  intros forged Hbad.
  pose proof (jwt_decode_rejected forged SECRET_KEY w Hbad) as Hdecf.
  rewrite (decode_refresh_token_JWTError _ _ _ _ Hdecf eq_refl), Hrt.
  rewrite (get_current_user_JWTError _ _ _ _ Hdecf eq_refl), Hcu.
  split; reflexivity.
Qed.

(** *** Issued tokens *)

Lemma issued_claims_scope scope data expire iat :
  issued_claims scope data expire iat !! "scope" = Some (VStr scope).
Proof. unfold issued_claims. apply lookup_insert_eq. Qed.

Lemma issued_claims_exp scope data expire iat :
  issued_claims scope data expire iat !! "exp" = Some (intdate expire).
Proof.
  unfold issued_claims. rewrite lookup_insert_ne by done.
  apply lookup_insert_eq.
Qed.

Lemma issued_claims_iat scope data expire iat :
  issued_claims scope data expire iat !! "iat" = Some (intdate iat).
Proof.
  unfold issued_claims. rewrite !lookup_insert_ne by done.
  apply lookup_insert_eq.
Qed.

Lemma issued_claims_sub scope data expire iat :
  issued_claims scope data expire iat !! "sub" = data !! "sub".
Proof. unfold issued_claims. rewrite !lookup_insert_ne by done. reflexivity. Qed.

Lemma create_access_token_eq data expires_delta w :
  create_access_token J SECRET_KEY clock data expires_delta w =
    (Ok (jws_sign J (issued_claims "access_token" data
                       (expiry expires_delta (timedelta_minutes 15)
                               (clock (reads w)))
                       (clock (S (reads w))))
                  SECRET_KEY),
     mkWorld (db w) (S (S (reads w)))).
Proof.
  unfold create_access_token, expiry, bind, utcnow, ret, jwt_encode.
  destruct (truthy expires_delta); reflexivity.
Qed.

Lemma create_refresh_token_eq data expires_delta w :
  create_refresh_token J SECRET_KEY clock data expires_delta w =
    (Ok (jws_sign J (issued_claims "refresh_token" data
                       (expiry expires_delta (timedelta_days 7)
                               (clock (reads w)))
                       (clock (S (reads w))))
                  SECRET_KEY),
     mkWorld (db w) (S (S (reads w)))).
Proof.
  unfold create_refresh_token, expiry, bind, utcnow, ret, jwt_encode.
  destruct (truthy expires_delta); reflexivity.
Qed.

(** C4, as the code has it: an unexpired refresh token presented as an
    access token gets the one answer [get_current_user] has for every
    failure, the credentials exception; an unexpired access token
    presented for refresh gets the answer "Invalid scope for token", which
    no other failure gets. *)
Theorem wrong_purpose_answers s delta_r w0 rt w1 w cr w' delta_a v0 at' v1 v ca v' :
  Jose_correct J →
  create_refresh_token J SECRET_KEY clock {["sub" := VStr s]} delta_r w0 = (Ok rt, w1) →
  jwt_decode J clock rt SECRET_KEY w = (Ok cr, w') →
  create_access_token J SECRET_KEY clock {["sub" := VStr s]} delta_a v0 = (Ok at', v1) →
  jwt_decode J clock at' SECRET_KEY v = (Ok ca, v') →
  get_current_user J SECRET_KEY clock rt w = (Raise credentials_exception, w') ∧
  decode_refresh_token J SECRET_KEY clock at' v =
    (Raise (HTTPException 401 "Invalid scope for token" []), v').
Proof.
  intros HJ Hrt Hdr Hat Hda.
  rewrite create_refresh_token_eq in Hrt. rewrite create_access_token_eq in Hat.
  injection Hrt as <- _. injection Hat as <- _.
  destruct (jwt_decode_Ok _ _ _ _ _ Hdr) as [Hvr _].
  destruct (jwt_decode_Ok _ _ _ _ _ Hda) as [Hva _].
  rewrite HJ in Hvr, Hva. injection Hvr as <-. injection Hva as <-.
  split.
  - unfold get_current_user, get_current_user_email, try_except, bind.
    rewrite Hdr. unfold getitem. rewrite issued_claims_scope. reflexivity.
  - unfold decode_refresh_token, try_except, bind.
    rewrite Hda. unfold getitem. rewrite issued_claims_scope. reflexivity.
Qed.

Lemma timegm_mono t t' : t ≤ t' → timegm t ≤ timegm t'.
Proof. intros H. unfold timegm. apply Z.div_le_mono; lia. Qed.

(** C5: an access token issued for [s] with the default lifetime and
    verified while at most fifteen minutes have passed on the clock
    verifies to the subject [s], and [get_current_user] returns the
    account of [s]. *)
Theorem access_token_round_trip s w0 token w1 w u :
  Jose_correct J →
  create_access_token J SECRET_KEY clock {["sub" := VStr s]} None w0 = (Ok token, w1) →
  clock (reads w) ≤ clock (reads w0) + timedelta_minutes 15 →
  find_user (VStr s) (db w) = Some u →
  let w' := mkWorld (db w) (S (reads w)) in
  get_current_user_email J SECRET_KEY clock token w = (Ok (VStr s), w') ∧
  get_current_user J SECRET_KEY clock token w = (Ok u, w') ∧
  user_email u = s.
Proof.
  intros HJ Hissue Hnow Hfind w'.
  rewrite create_access_token_eq in Hissue. injection Hissue as <- _.
  set (c := issued_claims _ _ _ _).
  assert (Hdec : jwt_decode J clock (jws_sign J c SECRET_KEY) SECRET_KEY w = (Ok c, w')).
  { unfold jwt_decode, validate_iat, validate_exp, validate_sub, bind.
    rewrite HJ. subst c.
    rewrite issued_claims_iat, issued_claims_exp, issued_claims_sub.
    rewrite lookup_singleton_eq. simpl. unfold bind, utcnow. simpl.
    rewrite decide_False; [reflexivity|].
    apply Z.le_ngt, timegm_mono. exact Hnow. }
  assert (Hemail : get_current_user_email J SECRET_KEY clock
                     (jws_sign J c SECRET_KEY) w = (Ok (VStr s), w')).
  { unfold get_current_user_email, try_except, bind. rewrite Hdec.
    unfold getitem. subst c. rewrite issued_claims_scope. simpl.
    unfold bind. rewrite issued_claims_sub, lookup_singleton_eq. reflexivity. }
  split; [exact Hemail|]. split.
  - unfold get_current_user, bind. rewrite Hemail.
    unfold get_user_by_email. simpl. rewrite Hfind. reflexivity.
  - apply find_user_email in Hfind. congruence.
Qed.

(** *** Refresh *)

(** C6: a correctly signed, unexpired refresh token whose subject has an
    account, but which is not the token persisted for that account: the
    refresh clears the persisted token and fails with 401. *)
Theorem refresh_stale_token_clears token w c w' email u :
  jwt_decode J clock token SECRET_KEY w = (Ok c, w') →
  c !! "scope" = Some (VStr "refresh_token") →
  c !! "sub" = Some email →
  find_user email (db w) = Some u →
  user_refresh_token u ≠ Some token →
  let w'' := (update_token u None w').2 in
  refresh_token J SECRET_KEY clock token w =
    (Raise (HTTPException 401 "Invalid refresh token" []), w'') ∧
  user_refresh_token <$> find_user email (db w'') = Some None.
Proof.
  intros Hdec Hscope Hsub Hfind Hne w''.
  destruct (jwt_decode_Ok _ _ _ _ _ Hdec) as [_ Hdb].
  split.
  - unfold refresh_token, bind.
    rewrite (decode_refresh_token_Ok _ _ _ _ _ Hdec Hscope Hsub).
    unfold get_user_by_email.
    rewrite Hdb, Hfind. rewrite decide_True by exact Hne. reflexivity.
  - subst w''. unfold update_token.
    rewrite (find_user_commit_row u (set_refresh_token None) email w').
    + reflexivity.
    + reflexivity.
    + rewrite Hdb. exact Hfind.
Qed.

(** C10: a correctly signed, unexpired refresh token whose subject has no
    account: the refresh does not answer 401, it raises the
    [AttributeError] of reading [refresh_token] of [None]. *)
Theorem refresh_absent_account_unhandled token w c w' email :
  jwt_decode J clock token SECRET_KEY w = (Ok c, w') →
  c !! "scope" = Some (VStr "refresh_token") →
  c !! "sub" = Some email →
  find_user email (db w) = None →
  refresh_token J SECRET_KEY clock token w = (Raise (AttributeError "refresh_token"), w').
Proof.
  intros Hdec Hscope Hsub Hfind.
  destruct (jwt_decode_Ok _ _ _ _ _ Hdec) as [_ Hdb].
  unfold refresh_token, bind.
  rewrite (decode_refresh_token_Ok _ _ _ _ _ Hdec Hscope Hsub).
  unfold get_user_by_email.
  rewrite Hdb, Hfind. reflexivity.
Qed.

Lemma decode_refresh_token_db token w :
  db (decode_refresh_token J SECRET_KEY clock token w).2 = db w.
Proof.
  unfold decode_refresh_token, try_except, bind.
  pose proof (jwt_decode_db token SECRET_KEY w) as Hdb.
  destruct (jwt_decode J clock token SECRET_KEY w) as [[c|e] wa]; simpl in *.
  - unfold getitem. run; done.
  - destruct (is_JWTError e); exact Hdb.
Qed.

(** A token the codec accepted once is accepted later with the same
    payload, unless it has expired by then. *)
Lemma jwt_decode_again token key w c w' w2 :
  jwt_decode J clock token key w = (Ok c, w') →
  ∃ w2', db w2' = db w2 ∧
    (jwt_decode J clock token key w2 = (Ok c, w2') ∨
     jwt_decode J clock token key w2 = (Raise ExpiredSignatureError, w2')).
Proof.
  unfold jwt_decode, validate_iat, validate_exp, validate_sub, as_int.
  destruct (jws_verify J token key) as [c'|]; [|intros [=]].
  destruct (c' !! "iat") as [[| |]|], (c' !! "exp") as [[|e|]|],
    (c' !! "sub") as [[| |]|];
    run; try done;
    (eexists; split; [|first [left; reflexivity | right; reflexivity]];
     reflexivity).
Qed.

Lemma decode_refresh_token_Ok_inv token w email wa :
  decode_refresh_token J SECRET_KEY clock token w = (Ok email, wa) →
  ∃ c, jwt_decode J clock token SECRET_KEY w = (Ok c, wa) ∧
       c !! "scope" = Some (VStr "refresh_token") ∧
       c !! "sub" = Some email.
Proof.
  unfold decode_refresh_token, try_except, bind.
  destruct (jwt_decode J clock token SECRET_KEY w) as [[c|e] w1].
  - unfold getitem.
    destruct (c !! "scope") as [scope|] eqn:Hscope; [|intros [=]].
    simpl. destruct (decide (scope = VStr "refresh_token")) as [->|]; [|intros [=]].
    destruct (c !! "sub") as [email'|] eqn:Hsub; intros [= <- <-]. eauto.
  - destruct (is_JWTError e); intros [=].
Qed.

(** A refresh token that was verified once is verified to the same subject
    later, unless it has expired by then. *)
Lemma decode_refresh_token_again token w email wa w2 :
  decode_refresh_token J SECRET_KEY clock token w = (Ok email, wa) →
  ∃ w2', db w2' = db w2 ∧
    (decode_refresh_token J SECRET_KEY clock token w2 = (Ok email, w2') ∨
     decode_refresh_token J SECRET_KEY clock token w2 =
       (Raise (HTTPException 401 "Could not validate credentials" []), w2')).
Proof.
  intros Hdec.
  destruct (decode_refresh_token_Ok_inv _ _ _ _ Hdec) as (c & Hc & Hscope & Hsub).
  destruct (jwt_decode_again _ _ _ _ _ w2 Hc) as (w2' & Hdb & [Hok|Hexpired]);
    exists w2'; (split; [exact Hdb|]).
  - left. exact (decode_refresh_token_Ok _ _ _ _ _ Hok Hscope Hsub).
  - right. unfold decode_refresh_token, try_except, bind. rewrite Hexpired.
    reflexivity.
Qed.

Lemma refresh_token_Ok token w tm w1 :
  refresh_token J SECRET_KEY clock token w = (Ok tm, w1) →
  ∃ email wa u,
    decode_refresh_token J SECRET_KEY clock token w = (Ok email, wa) ∧
    find_user email (db w) = Some u ∧
    user_refresh_token u = Some token ∧
    db w1 = List.map (λ u', if decide (user_id u' = user_id u)
                            then set_refresh_token (Some (refresh_token_field tm)) u'
                            else u') (db w).
Proof.
  unfold refresh_token, bind.
  pose proof (decode_refresh_token_db token w) as Hdb.
  destruct (decode_refresh_token J SECRET_KEY clock token w)
    as [[email|e] wa]; [|intros [=]].
  simpl in Hdb. unfold get_user_by_email.
  rewrite Hdb. destruct (find_user email (db w)) as [u|] eqn:Hfind; [|intros [=]].
  destruct (decide (user_refresh_token u ≠ Some token)) as [Hne|Heq]; [intros [=]|].
  apply dec_stable in Heq.
  rewrite create_access_token_eq, create_refresh_token_eq. simpl.
  intros [= <- <-]. exists email, wa, u. simpl. rewrite Hdb. done.
Qed.

(** C1, as the code has it: a refresh with [token] that succeeds persists
    the refresh token it returns for the account of the subject; if that
    token differs from [token], a later refresh with [token] on the same
    table is answered 401: "Invalid refresh token", or "Could not validate
    credentials" when [token] has expired meanwhile. *)
Theorem refresh_rotation token w tm w1 w2 :
  refresh_token J SECRET_KEY clock token w = (Ok tm, w1) →
  refresh_token_field tm ≠ token →
  db w2 = db w1 →
  (∃ email wa,
     decode_refresh_token J SECRET_KEY clock token w = (Ok email, wa) ∧
     user_refresh_token <$> find_user email (db w1) =
       Some (Some (refresh_token_field tm))) ∧
  ∃ detail w3,
    refresh_token J SECRET_KEY clock token w2 =
      (Raise (HTTPException 401 detail []), w3) ∧
    (detail = "Invalid refresh token" ∨
     detail = "Could not validate credentials").
Proof.
  intros Hfirst Hnew Hdb.
  destruct (refresh_token_Ok _ _ _ _ Hfirst)
    as (email & wa & u & Hdec & Hfind & _ & Hdb1).
  assert (Hfind1 : find_user email (db w1) =
            Some (set_refresh_token (Some (refresh_token_field tm)) u)).
  { rewrite Hdb1, find_user_map, Hfind.
    - simpl. rewrite decide_True; reflexivity.
    - intros u'. destruct (decide _); reflexivity. }
  split.
  { exists email, wa. split; [exact Hdec|]. rewrite Hfind1. reflexivity. }
  destruct (decode_refresh_token_again _ _ _ _ w2 Hdec)
    as (w2' & Hdb2 & [Hagain|Hexpired]).
  - exists "Invalid refresh token".
    unfold refresh_token, bind. rewrite Hagain.
    unfold get_user_by_email.
    rewrite Hdb2, Hdb, Hfind1. simpl.
    rewrite decide_True by congruence. eauto.
  - exists "Could not validate credentials".
    unfold refresh_token, bind. rewrite Hexpired. eauto.
Qed.

(** *** E-mail confirmation *)

Lemma confirm_email_confirmed token c iat exp s u w :
  jws_verify J token SECRET_KEY = Some c →
  c !! "iat" = Some (VInt iat) →
  c !! "exp" = Some (VInt exp) →
  c !! "sub" = Some (VStr s) →
  timegm (clock (reads w)) ≤ exp →
  find_user (VStr s) (db w) = Some u →
  user_confirmed u = true →
  confirm_email J SECRET_KEY clock token w =
    (Ok "Your email is already confirmed", mkWorld (db w) (S (reads w))).
Proof.
  intros Hver Hiat Hexp Hsub Hnow Hfind Hconf.
  unfold confirm_email, get_email_from_token, try_except, bind, jwt_decode,
    validate_iat, validate_exp, validate_sub, bind.
  rewrite Hver, Hiat, Hexp, Hsub. simpl. unfold bind, utcnow. simpl.
  rewrite decide_False by lia. simpl. unfold getitem. rewrite Hsub. simpl.
  rewrite Hfind, Hconf. reflexivity.
Qed.

(** C8: confirming with a valid token for an account that is already
    confirmed answers "Your email is already confirmed" instead of
    raising, and leaves the table as it was; so do [n] confirmations in a
    row, and the table after them is the table after one. *)
Theorem confirm_email_idempotent token c iat exp s u w n :
  jws_verify J token SECRET_KEY = Some c →
  c !! "iat" = Some (VInt iat) →
  c !! "exp" = Some (VInt exp) →
  c !! "sub" = Some (VStr s) →
  (∀ k, (reads w ≤ k < reads w + n)%nat → timegm (clock k) ≤ exp) →
  find_user (VStr s) (db w) = Some u →
  user_confirmed u = true →
  repeat_request n (confirm_email J SECRET_KEY clock token) w =
    (replicate n (Ok "Your email is already confirmed"),
     mkWorld (db w) (reads w + n)) ∧
  ((1 ≤ n)%nat →
   db (repeat_request n (confirm_email J SECRET_KEY clock token) w).2 =
   db (repeat_request 1 (confirm_email J SECRET_KEY clock token) w).2).
Proof.
  intros Hver Hiat Hexp Hsub Hnow Hfind Hconf.
  assert (Hall : ∀ m w', db w' = db w →
            (∀ k, (reads w' ≤ k < reads w' + m)%nat → timegm (clock k) ≤ exp) →
            repeat_request m (confirm_email J SECRET_KEY clock token) w' =
              (replicate m (Ok "Your email is already confirmed"),
               mkWorld (db w) (reads w' + m))).
  { induction m as [|m IH]; intros w' Hdb Hvalid; simpl.
    - rewrite <-Hdb, Nat.add_0_r. destruct w'; reflexivity.
    - rewrite (confirm_email_confirmed token c iat exp s u w');
        [|done..|apply Hvalid; lia|by rewrite Hdb|done].
      rewrite IH; [|exact Hdb|intros k Hk; apply Hvalid; simpl in Hk; lia].
      simpl. do 2 f_equal. lia. }
  split.
  - apply Hall; [reflexivity | exact Hnow].
  - intros Hn. rewrite !Hall; try reflexivity; [|exact Hnow].
    intros k Hk. apply Hnow. lia.
Qed.

(** *** Login *)

(** C7: login on an account that is not confirmed answers "Email not
    confirmed" whatever the password; "Invalid password" is answered for
    confirmed accounts only. *)
Theorem login_unconfirmed username w u :
  find_user (VStr username) (db w) = Some u →
  (user_confirmed u = false →
   ∀ password,
     login J P SECRET_KEY clock username password w =
       (Raise (HTTPException 401 "Email not confirmed" []), w)) ∧
  (∀ password w',
     login J P SECRET_KEY clock username password w =
       (Raise (HTTPException 401 "Invalid password" []), w') →
     user_confirmed u = true).
Proof.
  intros Hfind. split.
  - intros Hconf password. unfold login, bind, get_user_by_email.
    rewrite Hfind, Hconf. reflexivity.
  - intros password w'. unfold login, bind, get_user_by_email.
    rewrite Hfind.
    destruct (user_confirmed u); [reflexivity|]. intros [=].
Qed.

End Properties.

(** ** The symbolic instance *)

Lemma bits_to_pos_to_bits (p : positive) : bits_to_pos (pos_to_bits p) = Some p.
Proof. induction p as [p IH|p IH|]; simpl; rewrite ?IH; reflexivity. Qed.

Lemma symbolic_jose_correct : Jose_correct symbolic_jose.
Proof.
  intros c key. simpl. unfold symbolic_verify, symbolic_sign.
  rewrite bits_to_pos_to_bits. simpl. rewrite decode_encode.
  rewrite decide_True; reflexivity.
Qed.

(** A token signed under one key does not verify under another. *)
Lemma symbolic_jose_other_key (c : claims) (key key' : string) :
  key' ≠ key → jws_verify symbolic_jose (jws_sign symbolic_jose c key') key = None.
Proof.
  intros Hne. simpl. unfold symbolic_verify, symbolic_sign.
  rewrite bits_to_pos_to_bits. simpl. rewrite decode_encode.
  rewrite decide_False; [reflexivity | exact Hne].
Qed.


(** ** The service on concrete requests *)

(** The tokens of the examples are the ones the service issues: a login
    of alice in that second returns [alice_access] and [alice_refresh]
    and persists the latter. *)
Example login_alice :
  login symbolic_jose plain_crypt example_key same_second_clock
        "a@example.com" "secret" logged_out_world =
    (Ok (mkTokenModel alice_access alice_refresh "bearer"),
     mkWorld [alice; bob] 4).
Proof. vm_compute. reflexivity. Qed.

Example altered_refresh_rejected :
  jws_verify symbolic_jose altered_refresh example_key = None.
Proof. vm_compute. reflexivity. Qed.

(** C1 fails when the refresh happens in the second in which the token
    was issued: the token the refresh issues and persists is the token
    that was presented, and presenting it once more succeeds again. *)
Lemma refresh_same_second_replay :
  ∃ access access',
    refresh_token symbolic_jose example_key same_second_clock alice_refresh
                  example_world =
      (Ok (mkTokenModel access alice_refresh "bearer"),
       mkWorld [alice; bob] 5) ∧
    refresh_token symbolic_jose example_key same_second_clock alice_refresh
                  (mkWorld [alice; bob] 5) =
      (Ok (mkTokenModel access' alice_refresh "bearer"),
       mkWorld [alice; bob] 10).
Proof.
  eexists _, _. split; vm_compute; reflexivity.
Qed.

(** C2 fails: an expired token and a token signed under another secret get
    the same answer, from the refresh verification and from the access
    verification. *)
Lemma expired_answer_is_invalid_answer :
  jws_verify symbolic_jose expired_refresh example_key = Some expired_refresh_claims ∧
  jws_verify symbolic_jose expired_access example_key = Some expired_access_claims ∧
  jws_verify symbolic_jose forged_refresh example_key = None ∧
  (decode_refresh_token symbolic_jose example_key same_second_clock
                        expired_refresh example_world).1 =
  (decode_refresh_token symbolic_jose example_key same_second_clock
                        forged_refresh example_world).1 ∧
  (get_current_user symbolic_jose example_key same_second_clock
                    expired_access example_world).1 =
  (get_current_user symbolic_jose example_key same_second_clock
                    forged_refresh example_world).1.
Proof.
  split; [apply symbolic_jose_correct|].
  split; [apply symbolic_jose_correct|].
  split; [apply symbolic_jose_other_key; done|].
  split; vm_compute; reflexivity.
Qed.


(** C4 fails for access verification: alice's unexpired refresh token,
    presented as an access token, gets the answer a token signed under
    another secret gets. *)
Lemma refresh_as_access_answer_is_invalid_answer :
  (jwt_decode symbolic_jose same_second_clock alice_refresh example_key
              example_world).1 = Ok alice_refresh_claims ∧
  jws_verify symbolic_jose forged_refresh example_key = None ∧
  (get_current_user symbolic_jose example_key same_second_clock
                    alice_refresh example_world).1 =
  (get_current_user symbolic_jose example_key same_second_clock
                    forged_refresh example_world).1.
Proof.
  split; [vm_compute; reflexivity|].
  split; [apply symbolic_jose_other_key; done|].
  vm_compute. reflexivity.
Qed.

(** The rotation on a clock that moves: the token persisted by the first
    refresh is a new one, and the old one is answered 401. *)
Lemma refresh_rotation_witness :
  ∃ detail w3,
    refresh_token symbolic_jose example_key hourly_clock alice_refresh
      (refresh_token symbolic_jose example_key hourly_clock alice_refresh
                     example_world).2 =
      (Raise (HTTPException 401 detail []), w3) ∧
    (detail = "Invalid refresh token" ∨
     detail = "Could not validate credentials").
Proof.
  eapply (refresh_rotation symbolic_jose example_key hourly_clock
            alice_refresh example_world).
  - vm_compute. reflexivity.
  - apply (bool_decide_unpack _). vm_compute. exact I.
  - vm_compute. reflexivity.
Defined.

Lemma expired_token_answered_as_invalid_witness :
  1699913600 < timegm (same_second_clock 0) ∧
  decode_refresh_token symbolic_jose example_key same_second_clock
                       expired_refresh example_world =
    (Raise (HTTPException 401 "Could not validate credentials" []),
     mkWorld [alice; bob] 1).
Proof.
  split; [reflexivity|].
  apply (expired_token_answered_as_invalid symbolic_jose example_key
           same_second_clock expired_refresh expired_refresh_claims
           1699308800 1699913600 example_world).
  - apply symbolic_jose_correct.
  - vm_compute. reflexivity.
  - vm_compute. reflexivity.
  - reflexivity.
Defined.


Lemma wrong_purpose_answers_witness :
  get_current_user symbolic_jose example_key same_second_clock
                   alice_refresh (mkWorld [alice; bob] 2) =
    (Raise credentials_exception, mkWorld [alice; bob] 3) ∧
  decode_refresh_token symbolic_jose example_key same_second_clock
                       alice_access (mkWorld [alice; bob] 2) =
    (Raise (HTTPException 401 "Invalid scope for token" []),
     mkWorld [alice; bob] 3).
Proof.
  apply (wrong_purpose_answers symbolic_jose example_key same_second_clock
           "a@example.com"
           None example_world alice_refresh (mkWorld [alice; bob] 2)
           (mkWorld [alice; bob] 2) alice_refresh_claims (mkWorld [alice; bob] 3)
           None example_world alice_access (mkWorld [alice; bob] 2)
           (mkWorld [alice; bob] 2) alice_access_claims (mkWorld [alice; bob] 3)).
  - apply symbolic_jose_correct.
  - reflexivity.
  - vm_compute. reflexivity.
  - reflexivity.
  - vm_compute. reflexivity.
Defined.

Lemma access_token_round_trip_witness :
  get_current_user_email symbolic_jose example_key same_second_clock
                         alice_access (mkWorld [alice; bob] 2) =
    (Ok (VStr "a@example.com"), mkWorld [alice; bob] 3) ∧
  get_current_user symbolic_jose example_key same_second_clock
                   alice_access (mkWorld [alice; bob] 2) =
    (Ok alice, mkWorld [alice; bob] 3) ∧
  user_email alice = "a@example.com".
Proof.
  apply (access_token_round_trip symbolic_jose example_key same_second_clock
           "a@example.com" example_world alice_access
           (mkWorld [alice; bob] 2) (mkWorld [alice; bob] 2) alice).
  - apply symbolic_jose_correct.
  - reflexivity.
  - vm_compute. discriminate.
  - vm_compute. reflexivity.
Defined.

(** alice holds [alice_refresh] and an earlier token of hers is
    presented: the refresh fails and her persisted token is gone. *)
Lemma refresh_stale_token_clears_witness :
  user_refresh_token <$> find_user (VStr "a@example.com") (db example_world) =
    Some (Some alice_refresh) ∧
  refresh_token symbolic_jose example_key same_second_clock earlier_refresh
                example_world =
    (Raise (HTTPException 401 "Invalid refresh token" []),
     mkWorld [alice_logged_out; bob] 1) ∧
  user_refresh_token <$>
    find_user (VStr "a@example.com") [alice_logged_out; bob] = Some None.
Proof.
  split; [vm_compute; reflexivity|].
  apply (refresh_stale_token_clears symbolic_jose example_key same_second_clock
           earlier_refresh example_world earlier_refresh_claims
           (mkWorld [alice; bob] 1) (VStr "a@example.com") alice).
  - vm_compute. reflexivity.
  - vm_compute. reflexivity.
  - vm_compute. reflexivity.
  - vm_compute. reflexivity.
  - apply (bool_decide_unpack _). vm_compute. exact I.
Defined.

Lemma refresh_absent_account_unhandled_witness :
  refresh_token symbolic_jose example_key same_second_clock nobody_refresh
                example_world =
    (Raise (AttributeError "refresh_token"), mkWorld [alice; bob] 1).
Proof.
  apply (refresh_absent_account_unhandled symbolic_jose example_key
           same_second_clock nobody_refresh example_world
           nobody_refresh_claims (mkWorld [alice; bob] 1)
           (VStr "n@example.com")).
  - vm_compute. reflexivity.
  - vm_compute. reflexivity.
  - vm_compute. reflexivity.
  - vm_compute. reflexivity.
Defined.

Lemma login_unconfirmed_witness :
  login symbolic_jose plain_crypt example_key same_second_clock
        "b@example.com" "hunter2" example_world =
    (Raise (HTTPException 401 "Email not confirmed" []), example_world) ∧
  login symbolic_jose plain_crypt example_key same_second_clock
        "b@example.com" "wrong" example_world =
    (Raise (HTTPException 401 "Email not confirmed" []), example_world).
Proof.
  assert (Hbob : find_user (VStr "b@example.com") (db example_world) = Some bob)
    by reflexivity.
  destruct (login_unconfirmed symbolic_jose plain_crypt example_key
              same_second_clock "b@example.com" example_world bob Hbob)
    as [Hlogin _].
  split; apply Hlogin; reflexivity.
Defined.

Lemma confirm_email_idempotent_witness :
  repeat_request 3
    (confirm_email symbolic_jose example_key same_second_clock
                   alice_email_token) example_world =
    ([Ok "Your email is already confirmed";
      Ok "Your email is already confirmed";
      Ok "Your email is already confirmed"], mkWorld [alice; bob] 3).
Proof.
  apply (confirm_email_idempotent symbolic_jose example_key same_second_clock
           alice_email_token alice_email_claims 1700000000 1700604800
           "a@example.com" alice example_world 3).
  - apply symbolic_jose_correct.
  - vm_compute. reflexivity.
  - vm_compute. reflexivity.
  - vm_compute. reflexivity.
  - intros k Hk. simpl in Hk.
    assert (Hk' : k = 0%nat ∨ k = 1%nat ∨ k = 2%nat) by lia.
    destruct Hk' as [->|[->| ->]]; vm_compute; discriminate.
  - reflexivity.
  - reflexivity.
Defined.

(** alice's access token is taken for an e-mail verification token. *)
Lemma get_email_from_token_ignores_scope_witness :
  ∃ email,
    alice_access_claims !! "sub" = Some email ∧
    get_email_from_token symbolic_jose example_key same_second_clock
                         alice_access (mkWorld [alice; bob] 2) =
      (Ok email, mkWorld [alice; bob] 3).
Proof.
  apply (get_email_from_token_ignores_scope symbolic_jose example_key
           same_second_clock alice_access (mkWorld [alice; bob] 2)).
  - intros c Hc. unfold alice_access in Hc.
    rewrite symbolic_jose_correct in Hc. injection Hc as <-.
    exists (VStr "a@example.com"). vm_compute. reflexivity.
  - vm_compute. reflexivity.
Defined.

(** ** More properties of the service *)

Section Sessions.

Context (J : Jose) (P : CryptContext) (SECRET_KEY : string) (clock : nat → Z).

(** *** Issued tokens at the codec *)

Lemma create_email_token_eq data w :
  create_email_token J SECRET_KEY clock data w =
    (Ok (jws_sign J (<["exp" := intdate (clock (reads w) + timedelta_days 7)]>
                       (<["iat" := intdate (clock (S (reads w)))]> data))
                  SECRET_KEY),
     mkWorld (db w) (S (S (reads w)))).
Proof. reflexivity. Qed.

(** What the codec makes of a payload with whole-second [iat] and [exp]
    and a string subject. *)
Lemma jwt_decode_timed token key c iat exp s w :
  jws_verify J token key = Some c →
  c !! "iat" = Some (VInt iat) →
  c !! "exp" = Some (VInt exp) →
  c !! "sub" = Some (VStr s) →
  jwt_decode J clock token key w =
    (if decide (exp < timegm (clock (reads w)))
     then Raise ExpiredSignatureError else Ok c,
     mkWorld (db w) (S (reads w))).
Proof.
  intros Hver Hiat Hexp Hsub.
  unfold jwt_decode, validate_iat, validate_exp, validate_sub, bind.
  rewrite Hver, Hiat, Hexp, Hsub. simpl. unfold bind, utcnow. simpl.
  destruct (decide _); reflexivity.
Qed.

Lemma jwt_decode_issued scope data expire iat s w :
  Jose_correct J →
  data !! "sub" = Some (VStr s) →
  jwt_decode J clock
    (jws_sign J (issued_claims scope data expire iat) SECRET_KEY) SECRET_KEY w =
    (if decide (timegm expire < timegm (clock (reads w)))
     then Raise ExpiredSignatureError
     else Ok (issued_claims scope data expire iat),
     mkWorld (db w) (S (reads w))).
Proof.
  intros HJ Hsub.
  apply (jwt_decode_timed _ _ _ (timegm iat) (timegm expire) s).
  - apply HJ.
  - apply issued_claims_iat.
  - apply issued_claims_exp.
  - rewrite issued_claims_sub. exact Hsub.
Qed.

End Sessions.

Section Sessions2.

Context (J : Jose) (P : CryptContext) (SECRET_KEY : string) (clock : nat → Z).

Ltac step :=
  cbn -[create_access_token create_refresh_token create_email_token
        update_token jwt_decode decode_refresh_token get_email_from_token].

(** *** Login *)

Lemma find_user_key email rows u :
  find_user email rows = Some u → find_user (VStr (user_email u)) rows = Some u.
Proof. intros H. rewrite (find_user_email _ _ _ H). exact H. Qed.

Lemma login_eq username password w u :
  find_user (VStr username) (db w) = Some u →
  user_confirmed u = true →
  verify_password P password (user_password u) = true →
  let data : claims := {["sub" := VStr (user_email u)]} in
  let refresh := refresh_token_at J SECRET_KEY clock data (2 + reads w) in
  login J P SECRET_KEY clock username password w =
    (Ok (mkTokenModel (access_token_at J SECRET_KEY clock data (reads w))
                      refresh "bearer"),
     (update_token u (Some refresh) (mkWorld (db w) (4 + reads w))).2).
Proof.
  intros Hfind Hconf Hpwd data refresh.
  unfold login, bind, get_user_by_email. rewrite Hfind, Hconf, Hpwd.
  step. rewrite create_access_token_eq, create_refresh_token_eq. reflexivity.
Qed.

(** X1: a login that fails has touched nothing: the world is the one it
    found, and the failure is one of the three 401 answers. *)
Theorem login_failure_leaves_world username password w e w' :
  login J P SECRET_KEY clock username password w = (Raise e, w') →
  w' = w ∧
  ∃ detail, e = HTTPException 401 detail [] ∧
    (detail = "Invalid email" ∨ detail = "Email not confirmed" ∨
     detail = "Invalid password").
Proof.
  unfold login, bind, get_user_by_email.
  destruct (find_user (VStr username) (db w)) as [u|]; step.
  - destruct (user_confirmed u); step.
    + destruct (verify_password P password (user_password u)); step.
      * rewrite create_access_token_eq, create_refresh_token_eq. intros [=].
      * intros [= <- <-]. eauto 10.
    + intros [= <- <-]. eauto 10.
  - intros [= <- <-]. eauto 10.
Qed.

(** X2: the access token a login returns resolves, while fifteen minutes
    have not passed, to the account that logged in, as the table now
    holds it: with the refresh token of that login persisted. *)
Theorem login_then_current_user username password w u tm w1 :
  Jose_correct J →
  find_user (VStr username) (db w) = Some u →
  login J P SECRET_KEY clock username password w = (Ok tm, w1) →
  clock (reads w1) ≤ clock (reads w) + timedelta_minutes 15 →
  get_current_user J SECRET_KEY clock (access_token tm) w1 =
    (Ok (set_refresh_token (Some (refresh_token_field tm)) u),
     mkWorld (db w1) (S (reads w1))).
Proof.
  intros HJ Hfind Hlogin Hnow.
  assert (Hconf : user_confirmed u = true ∧
                  verify_password P password (user_password u) = true).
  { revert Hlogin. unfold login, bind, get_user_by_email. rewrite Hfind.
    destruct (user_confirmed u); [|intros [=]].
    destruct (verify_password P password (user_password u)); [done|intros [=]]. }
  destruct Hconf as [Hconf Hpwd].
  rewrite (login_eq _ _ _ _ Hfind Hconf Hpwd) in Hlogin.
  injection Hlogin as <- <-. simpl.
  unfold get_current_user, get_current_user_email, try_except, bind.
  unfold access_token_at.
  rewrite (jwt_decode_issued J SECRET_KEY clock _ _ _ _ (user_email u)) by
    (done || apply lookup_singleton_eq).
  simpl. rewrite decide_False by (apply Z.le_ngt, timegm_mono; exact Hnow).
  unfold getitem. rewrite issued_claims_scope. simpl. unfold bind.
  rewrite issued_claims_sub, lookup_singleton_eq. simpl.
  unfold get_user_by_email. simpl.
  rewrite find_user_map.
  - rewrite (find_user_key _ _ _ Hfind). simpl.
    rewrite decide_True; reflexivity.
  - intros u'. destruct (decide _); reflexivity.
Qed.

(** *** Refresh *)

Lemma refresh_token_stored token w c w' email u :
  jwt_decode J clock token SECRET_KEY w = (Ok c, w') →
  c !! "scope" = Some (VStr "refresh_token") →
  c !! "sub" = Some email →
  find_user email (db w) = Some u →
  user_refresh_token u = Some token →
  let data : claims := {["sub" := email]} in
  let refresh := refresh_token_at J SECRET_KEY clock data (2 + reads w') in
  refresh_token J SECRET_KEY clock token w =
    (Ok (mkTokenModel (access_token_at J SECRET_KEY clock data (reads w'))
                      refresh "bearer"),
     (update_token u (Some refresh) (mkWorld (db w) (4 + reads w'))).2).
Proof.
  intros Hdec Hscope Hsub Hfind Hstored data refresh.
  destruct (jwt_decode_Ok _ _ _ _ _ _ _ Hdec) as [_ Hdb].
  unfold refresh_token, bind.
  rewrite (decode_refresh_token_Ok _ _ _ _ _ _ _ _ Hdec Hscope Hsub).
  unfold get_user_by_email. rewrite Hdb, Hfind.
  rewrite decide_False by (intros Hne; exact (Hne Hstored)).
  rewrite create_access_token_eq, create_refresh_token_eq.
  step. rewrite Hdb. reflexivity.
Qed.

(** X3: the success of a refresh.  A verified refresh token that is the one
    persisted for the account of its subject is answered with a new pair,
    issued for that subject with the default lifetimes, and the new
    refresh token takes the place of the old one in the table. *)
Theorem refresh_success token w c w' email u :
  jwt_decode J clock token SECRET_KEY w = (Ok c, w') →
  c !! "scope" = Some (VStr "refresh_token") →
  c !! "sub" = Some email →
  find_user email (db w) = Some u →
  user_refresh_token u = Some token →
  let data : claims := {["sub" := email]} in
  let refresh := refresh_token_at J SECRET_KEY clock data (2 + reads w') in
  let w'' := (update_token u (Some refresh) (mkWorld (db w) (4 + reads w'))).2 in
  refresh_token J SECRET_KEY clock token w =
    (Ok (mkTokenModel (access_token_at J SECRET_KEY clock data (reads w'))
                      refresh "bearer"), w'') ∧
  find_user email (db w'') = Some (set_refresh_token (Some refresh) u).
Proof.
  intros Hdec Hscope Hsub Hfind Hstored data refresh w''.
  split.
  - exact (refresh_token_stored _ _ _ _ _ _ Hdec Hscope Hsub Hfind Hstored).
  - subst w''. unfold update_token.
    apply (find_user_commit_row u (set_refresh_token (Some refresh)) email
             (mkWorld (db w) (4 + reads w'))); [reflexivity | exact Hfind].
Qed.

(** X4: the refresh token a login returns can be used, while seven days
    have not passed, and is then replaced. *)
Theorem login_then_refresh username password w u tm w1 :
  Jose_correct J →
  find_user (VStr username) (db w) = Some u →
  login J P SECRET_KEY clock username password w = (Ok tm, w1) →
  clock (reads w1) ≤ clock (2 + reads w)%nat + timedelta_days 7 →
  ∃ tm' w2,
    refresh_token J SECRET_KEY clock (refresh_token_field tm) w1 = (Ok tm', w2) ∧
    user_refresh_token <$> find_user (VStr username) (db w2) =
      Some (Some (refresh_token_field tm')).
Proof.
  intros HJ Hfind Hlogin Hnow.
  assert (Hconf : user_confirmed u = true ∧
                  verify_password P password (user_password u) = true).
  { revert Hlogin. unfold login, bind, get_user_by_email. rewrite Hfind.
    destruct (user_confirmed u); [|intros [=]].
    destruct (verify_password P password (user_password u)); [done|intros [=]]. }
  destruct Hconf as [Hconf Hpwd].
  rewrite (login_eq _ _ _ _ Hfind Hconf Hpwd) in Hlogin.
  injection Hlogin as <- <-.
  set (data := ({["sub" := VStr (user_email u)]} : claims)).
  set (rt := refresh_token_at J SECRET_KEY clock data (2 + reads w)).
  set (w1 := (update_token u (Some rt) (mkWorld (db w) (4 + reads w))).2).
  assert (Hfind1 : find_user (VStr (user_email u)) (db w1) =
                   Some (set_refresh_token (Some rt) u)).
  { apply (find_user_commit_row u (set_refresh_token (Some rt)) _
             (mkWorld (db w) (4 + reads w))); [reflexivity|].
    exact (find_user_key _ _ _ Hfind). }
  assert (Hdec : jwt_decode J clock rt SECRET_KEY w1 =
            (Ok (issued_claims "refresh_token" data
                   (clock (2 + reads w)%nat + timedelta_days 7)
                   (clock (S (2 + reads w)))),
             mkWorld (db w1) (S (reads w1)))).
  { unfold rt, refresh_token_at.
    rewrite (jwt_decode_issued J SECRET_KEY clock _ _ _ _ (user_email u)) by
      (done || apply lookup_singleton_eq).
    rewrite decide_False by (apply Z.le_ngt, timegm_mono; exact Hnow).
    reflexivity. }
  pose proof (refresh_token_stored rt w1 _ _ (VStr (user_email u))
                (set_refresh_token (Some rt) u) Hdec
                (issued_claims_scope _ _ _ _)) as Hrefresh.
  rewrite issued_claims_sub in Hrefresh.
  specialize (Hrefresh (lookup_singleton_eq _ _) Hfind1 eq_refl).
  eexists _, _. split; [exact Hrefresh|].
  rewrite <-(find_user_email _ _ _ Hfind).
  unfold update_token.
  erewrite (find_user_commit_row _ (set_refresh_token _) _
              (mkWorld (db w1) _)); [reflexivity | reflexivity | exact Hfind1].
Qed.

(** *** Verification *)

Lemma get_email_from_token_db token w :
  db (get_email_from_token J SECRET_KEY clock token w).2 = db w.
Proof.
  unfold get_email_from_token, try_except, bind.
  pose proof (jwt_decode_db J clock token SECRET_KEY w) as Hdb.
  destruct (jwt_decode J clock token SECRET_KEY w) as [[c|e] wa]; simpl in *.
  - unfold getitem. destruct (c !! "sub"); exact Hdb.
  - destruct (is_JWTError e); exact Hdb.
Qed.

Lemma get_current_user_email_db token w :
  db (get_current_user_email J SECRET_KEY clock token w).2 = db w.
Proof.
  unfold get_current_user_email, try_except, bind.
  pose proof (jwt_decode_db J clock token SECRET_KEY w) as Hdb.
  destruct (jwt_decode J clock token SECRET_KEY w) as [[c|e] wa]; simpl in *.
  - unfold getitem. destruct (c !! "scope") as [scope|]; [|exact Hdb].
    simpl. destruct (decide (scope = VStr "access_token")); [|exact Hdb].
    unfold bind. destruct (c !! "sub") as [email|]; [|exact Hdb].
    simpl. destruct (decide (email = VNone)); exact Hdb.
  - destruct (is_JWTError e); exact Hdb.
Qed.

(** X5: verifying a token writes nothing: whatever the token and whatever
    the outcome, the table after [get_current_user],
    [decode_refresh_token] and [get_email_from_token] is the table
    before. *)
Theorem verification_reads_only token w :
  db (get_current_user J SECRET_KEY clock token w).2 = db w ∧
  db (decode_refresh_token J SECRET_KEY clock token w).2 = db w ∧
  db (get_email_from_token J SECRET_KEY clock token w).2 = db w.
Proof.
  split; [|split].
  - unfold get_current_user, bind.
    pose proof (get_current_user_email_db token w) as Hdb.
    destruct (get_current_user_email J SECRET_KEY clock token w) as [[email|e] wa];
      simpl in *; [|exact Hdb].
    destruct (find_user email (db wa)); exact Hdb.
  - apply decode_refresh_token_db.
  - apply get_email_from_token_db.
Qed.

(** X6: an access token that verifies, for a subject that has no account:
    [get_current_user] answers with the credentials exception (the guard
    the refresh route lacks). *)
Theorem get_current_user_absent_account token w c w' s :
  jwt_decode J clock token SECRET_KEY w = (Ok c, w') →
  c !! "scope" = Some (VStr "access_token") →
  c !! "sub" = Some (VStr s) →
  find_user (VStr s) (db w) = None →
  get_current_user J SECRET_KEY clock token w =
    (Raise credentials_exception, w').
Proof.
  intros Hdec Hscope Hsub Hfind.
  destruct (jwt_decode_Ok _ _ _ _ _ _ _ Hdec) as [_ Hdb].
  unfold get_current_user, get_current_user_email, try_except, bind.
  rewrite Hdec. unfold getitem. rewrite Hscope. simpl. unfold bind.
  rewrite Hsub. simpl. unfold get_user_by_email. rewrite Hdb, Hfind.
  reflexivity.
Qed.

End Sessions2.

Section Confirmation.

Context (J : Jose) (P : CryptContext) (SECRET_KEY : string) (clock : nat → Z).

Ltac step :=
  cbn -[create_access_token create_refresh_token create_email_token
        update_token jwt_decode decode_refresh_token get_email_from_token].

(** *** E-mail tokens *)

(** The payload [create_email_token] signs when the clock has been read
    [r] times: no [scope]. *)
Lemma jwt_decode_email_token data s w0 w :
  Jose_correct J →
  data !! "sub" = Some (VStr s) →
  let c : claims :=
    <["exp" := intdate (clock (reads w0) + timedelta_days 7)]>
      (<["iat" := intdate (clock (S (reads w0)))]> data) in
  jwt_decode J clock (jws_sign J c SECRET_KEY) SECRET_KEY w =
    (if decide (timegm (clock (reads w0) + timedelta_days 7)
                < timegm (clock (reads w)))
     then Raise ExpiredSignatureError else Ok c,
     mkWorld (db w) (S (reads w))).
Proof.
  intros HJ Hsub c.
  apply (jwt_decode_timed J clock _ _ _ (timegm (clock (S (reads w0))))
           (timegm (clock (reads w0) + timedelta_days 7)) s).
  - apply HJ.
  - subst c. rewrite lookup_insert_ne by done. apply lookup_insert_eq.
  - subst c. apply lookup_insert_eq.
  - subst c. rewrite !lookup_insert_ne by done. exact Hsub.
Qed.

(** X7: an e-mail token issued for [s] gives [s] back to
    [get_email_from_token] while seven days have not passed. *)
Theorem email_token_round_trip s w0 token w1 w :
  Jose_correct J →
  create_email_token J SECRET_KEY clock {["sub" := VStr s]} w0 = (Ok token, w1) →
  clock (reads w) ≤ clock (reads w0) + timedelta_days 7 →
  get_email_from_token J SECRET_KEY clock token w =
    (Ok (VStr s), mkWorld (db w) (S (reads w))).
Proof.
  intros HJ Hissue Hnow.
  rewrite create_email_token_eq in Hissue. injection Hissue as <- _.
  unfold get_email_from_token, try_except, bind.
  rewrite (jwt_decode_email_token _ s) by (done || apply lookup_singleton_eq).
  rewrite decide_False by (apply Z.le_ngt, timegm_mono; exact Hnow).
  unfold getitem. rewrite !lookup_insert_ne by done.
  rewrite lookup_singleton_eq. reflexivity.
Qed.

(** X8: an e-mail token carries no [scope].  Presented as a bearer token
    while it is valid, it makes both verifications raise the [KeyError]
    of [payload["scope"]], which neither catches: not a 401. *)
Theorem email_token_as_bearer_unhandled s w0 token w1 w :
  Jose_correct J →
  create_email_token J SECRET_KEY clock {["sub" := VStr s]} w0 = (Ok token, w1) →
  clock (reads w) ≤ clock (reads w0) + timedelta_days 7 →
  let w' := mkWorld (db w) (S (reads w)) in
  decode_refresh_token J SECRET_KEY clock token w = (Raise (KeyError "scope"), w') ∧
  get_current_user J SECRET_KEY clock token w = (Raise (KeyError "scope"), w').
Proof.
  intros HJ Hissue Hnow w'.
  rewrite create_email_token_eq in Hissue. injection Hissue as <- _.
  unfold get_current_user, get_current_user_email, decode_refresh_token,
    try_except, bind.
  rewrite (jwt_decode_email_token _ s) by (done || apply lookup_singleton_eq).
  rewrite decide_False by (apply Z.le_ngt, timegm_mono; exact Hnow).
  unfold getitem. rewrite !lookup_insert_ne by done.
  rewrite lookup_singleton_ne by done. split; reflexivity.
Qed.

(** *** Confirmation *)

Lemma get_email_from_token_valid token c iat exp s w :
  jws_verify J token SECRET_KEY = Some c →
  c !! "iat" = Some (VInt iat) →
  c !! "exp" = Some (VInt exp) →
  c !! "sub" = Some (VStr s) →
  timegm (clock (reads w)) ≤ exp →
  get_email_from_token J SECRET_KEY clock token w =
    (Ok (VStr s), mkWorld (db w) (S (reads w))).
Proof.
  intros Hver Hiat Hexp Hsub Hnow.
  unfold get_email_from_token, try_except, bind.
  rewrite (jwt_decode_timed J clock _ _ _ iat exp s w Hver Hiat Hexp Hsub).
  rewrite decide_False by lia. unfold getitem. rewrite Hsub. reflexivity.
Qed.

Lemma confirm_email_unconfirmed token c iat exp s u w :
  jws_verify J token SECRET_KEY = Some c →
  c !! "iat" = Some (VInt iat) →
  c !! "exp" = Some (VInt exp) →
  c !! "sub" = Some (VStr s) →
  timegm (clock (reads w)) ≤ exp →
  find_user (VStr s) (db w) = Some u →
  user_confirmed u = false →
  let w' := (commit_row u (set_confirmed true)
                        (mkWorld (db w) (S (reads w)))).2 in
  confirm_email J SECRET_KEY clock token w = (Ok "Email confirmed", w') ∧
  find_user (VStr s) (db w') = Some (set_confirmed true u).
Proof.
  intros Hver Hiat Hexp Hsub Hnow Hfind Hconf w'. split.
  - unfold confirm_email, bind.
    rewrite (get_email_from_token_valid _ _ _ _ _ _ Hver Hiat Hexp Hsub Hnow).
    unfold get_user_by_email. simpl. rewrite Hfind, Hconf.
    unfold repository_users_confirm_email, bind, get_user_by_email. simpl.
    rewrite Hfind. reflexivity.
  - apply (find_user_commit_row u (set_confirmed true) _
             (mkWorld (db w) (S (reads w)))); [reflexivity | exact Hfind].
Qed.

(** X9: confirming with a valid token for an account that is not yet
    confirmed answers "Email confirmed" and sets the flag of that account;
    a login with the right password, refused before, then goes through. *)
Theorem confirm_email_then_login token c iat exp s u password w :
  jws_verify J token SECRET_KEY = Some c →
  c !! "iat" = Some (VInt iat) →
  c !! "exp" = Some (VInt exp) →
  c !! "sub" = Some (VStr s) →
  timegm (clock (reads w)) ≤ exp →
  find_user (VStr s) (db w) = Some u →
  user_confirmed u = false →
  verify_password P password (user_password u) = true →
  ∃ w',
    confirm_email J SECRET_KEY clock token w = (Ok "Email confirmed", w') ∧
    find_user (VStr s) (db w') = Some (set_confirmed true u) ∧
    login J P SECRET_KEY clock s password w =
      (Raise (HTTPException 401 "Email not confirmed" []), w) ∧
    ∃ tm w'', login J P SECRET_KEY clock s password w' = (Ok tm, w'').
Proof.
  intros Hver Hiat Hexp Hsub Hnow Hfind Hconf Hpwd.
  destruct (confirm_email_unconfirmed _ _ _ _ _ _ _ Hver Hiat Hexp Hsub Hnow
              Hfind Hconf) as [Hconfirm Hfind'].
  eexists. split; [exact Hconfirm|]. split; [exact Hfind'|]. split.
  - unfold login, bind, get_user_by_email. rewrite Hfind, Hconf. reflexivity.
  - eexists _, _. apply (login_eq J P SECRET_KEY clock s password _ _ Hfind');
      [reflexivity | exact Hpwd].
Qed.

(** X10: a valid e-mail token whose subject has no account is answered 400
    "Verification error", and the table is left as it was. *)
Theorem confirm_email_unknown_subject token c iat exp s w :
  jws_verify J token SECRET_KEY = Some c →
  c !! "iat" = Some (VInt iat) →
  c !! "exp" = Some (VInt exp) →
  c !! "sub" = Some (VStr s) →
  timegm (clock (reads w)) ≤ exp →
  find_user (VStr s) (db w) = None →
  confirm_email J SECRET_KEY clock token w =
    (Raise (HTTPException 400 "Verification error" []),
     mkWorld (db w) (S (reads w))).
Proof.
  intros Hver Hiat Hexp Hsub Hnow Hfind.
  unfold confirm_email, bind.
  rewrite (get_email_from_token_valid _ _ _ _ _ _ Hver Hiat Hexp Hsub Hnow).
  unfold get_user_by_email. simpl. rewrite Hfind. reflexivity.
Qed.

End Confirmation.

Section Lifetimes.

Context (J : Jose) (P : CryptContext) (SECRET_KEY : string) (clock : nat → Z).

Ltac step :=
  cbn -[create_access_token create_refresh_token create_email_token
        update_token jwt_decode decode_refresh_token get_email_from_token].

Lemma get_current_user_issued s expire iat w u :
  Jose_correct J →
  find_user (VStr s) (db w) = Some u →
  get_current_user J SECRET_KEY clock
    (jws_sign J (issued_claims "access_token" {["sub" := VStr s]} expire iat)
              SECRET_KEY) w =
    (if decide (timegm (clock (reads w)) ≤ timegm expire)
     then Ok u else Raise credentials_exception,
     mkWorld (db w) (S (reads w))).
Proof.
  intros HJ Hfind.
  unfold get_current_user, get_current_user_email, try_except, bind.
  rewrite (jwt_decode_issued J SECRET_KEY clock _ _ _ _ s) by
    (done || apply lookup_singleton_eq).
  destruct (decide (timegm expire < timegm (clock (reads w)))) as [Hlt|Hge].
  - rewrite decide_False by lia. reflexivity.
  - rewrite decide_True by lia.
    unfold getitem. rewrite issued_claims_scope. simpl. unfold bind.
    rewrite issued_claims_sub, lookup_singleton_eq. simpl.
    unfold get_user_by_email. simpl. rewrite Hfind. reflexivity.
Qed.

(** X11: the lifetime of an access token.  Issued at the reading [t] with
    [expires_delta], it resolves to the account of its subject at every
    reading whose second is not after the second of its expiry (the
    second of expiry itself included), and is answered with the
    credentials exception from the next second on. *)
Theorem access_token_lifetime s expires_delta w0 token w1 w u :
  Jose_correct J →
  create_access_token J SECRET_KEY clock {["sub" := VStr s]} expires_delta w0 =
    (Ok token, w1) →
  find_user (VStr s) (db w) = Some u →
  let expire := expiry expires_delta (timedelta_minutes 15) (clock (reads w0)) in
  get_current_user J SECRET_KEY clock token w =
    (if decide (timegm (clock (reads w)) ≤ timegm expire)
     then Ok u else Raise credentials_exception,
     mkWorld (db w) (S (reads w))).
Proof.
  intros HJ Hissue Hfind expire.
  rewrite create_access_token_eq in Hissue. injection Hissue as <- _.
  apply get_current_user_issued; assumption.
Qed.

(** X12: a lifetime of [0] seconds is falsy and counts as none given: the
    access token does not expire at once, it resolves to the account for
    the fifteen minutes of the default. *)
Theorem zero_lifetime_is_the_default s w0 token w1 w u :
  Jose_correct J →
  create_access_token J SECRET_KEY clock {["sub" := VStr s]} (Some 0) w0 =
    (Ok token, w1) →
  find_user (VStr s) (db w) = Some u →
  clock (reads w) ≤ clock (reads w0) + timedelta_minutes 15 →
  token = access_token_at J SECRET_KEY clock {["sub" := VStr s]} (reads w0) ∧
  get_current_user J SECRET_KEY clock token w =
    (Ok u, mkWorld (db w) (S (reads w))).
Proof.
  intros HJ Hissue Hfind Hnow.
  rewrite create_access_token_eq in Hissue. injection Hissue as <- _.
  split; [reflexivity|].
  rewrite (get_current_user_issued _ _ _ _ _ HJ Hfind).
  rewrite decide_True; [reflexivity|]. apply timegm_mono. exact Hnow.
Qed.

(** *** What the token routes leave alone *)

Lemma same_accounts_refl rows : same_accounts rows rows.
Proof. apply Forall2_same_length_lookup_2; [done|]. intros; simplify_eq; done. Qed.

Lemma same_accounts_commit_row user f rows :
  (∀ u, credentials (f u) = credentials u ∧
        (user_confirmed u = true → user_confirmed (f u) = true)) →
  same_accounts rows
    (List.map (λ u, if decide (user_id u = user_id user) then f u else u) rows).
Proof.
  intros Hf. unfold same_accounts.
  induction rows as [|u rows IH]; simpl; constructor; [|exact IH].
  destruct (decide _); [apply Hf | done].
Qed.

Lemma same_accounts_update_token user token w :
  same_accounts (db w) (db (update_token user token w).2).
Proof. apply same_accounts_commit_row. intros u. split; [reflexivity | done]. Qed.

Lemma same_accounts_confirm user w :
  same_accounts (db w) (db (commit_row user (set_confirmed true) w).2).
Proof. apply same_accounts_commit_row. intros u. split; reflexivity. Qed.

Lemma login_keeps_accounts username password w :
  same_accounts (db w) (db (login J P SECRET_KEY clock username password w).2).
Proof.
  unfold login, bind, get_user_by_email.
  destruct (find_user (VStr username) (db w)) as [u|]; step;
    [|apply same_accounts_refl].
  destruct (user_confirmed u); step; [|apply same_accounts_refl].
  destruct (verify_password P password (user_password u)); step;
    [|apply same_accounts_refl].
  rewrite create_access_token_eq, create_refresh_token_eq.
  apply (same_accounts_update_token u _ (mkWorld (db w) _)).
Qed.

Lemma refresh_token_keeps_accounts token w :
  same_accounts (db w) (db (refresh_token J SECRET_KEY clock token w).2).
Proof.
  unfold refresh_token, bind.
  pose proof (decode_refresh_token_db J SECRET_KEY clock token w) as Hdb.
  destruct (decode_refresh_token J SECRET_KEY clock token w) as [[email|e] wa];
    simpl in Hdb; [|rewrite <-Hdb; apply same_accounts_refl].
  unfold get_user_by_email.
  destruct (find_user email (db wa)) as [u|]; step;
    [|rewrite Hdb; apply same_accounts_refl].
  destruct (decide (user_refresh_token u ≠ Some token)); step.
  - rewrite <-Hdb. apply (same_accounts_update_token u None wa).
  - rewrite create_access_token_eq, create_refresh_token_eq.
    rewrite <-Hdb. apply (same_accounts_update_token u _ (mkWorld (db wa) _)).
Qed.

Lemma confirm_email_keeps_accounts token w :
  same_accounts (db w) (db (confirm_email J SECRET_KEY clock token w).2).
Proof.
  unfold confirm_email, bind.
  pose proof (get_email_from_token_db J SECRET_KEY clock token w) as Hdb.
  destruct (get_email_from_token J SECRET_KEY clock token w) as [[email|e] wa];
    simpl in Hdb; [|rewrite <-Hdb; apply same_accounts_refl].
  unfold get_user_by_email.
  destruct (find_user email (db wa)) as [u|] eqn:Hfind; step;
    [|rewrite Hdb; apply same_accounts_refl].
  destruct (user_confirmed u); step; [rewrite Hdb; apply same_accounts_refl|].
  unfold repository_users_confirm_email, bind, get_user_by_email.
  rewrite Hfind. rewrite <-Hdb. apply (same_accounts_confirm u wa).
Qed.

(** X13: whatever the request and whatever its outcome, [login],
    [refresh_token] and [confirm_email] leave the rows of the table in
    place with their id, username, e-mail, password hash, creation time
    and avatar, and take no [confirmed] flag back: they write the columns
    [refresh_token] and [confirmed] only. *)
Theorem token_routes_keep_accounts username password token w :
  same_accounts (db w) (db (login J P SECRET_KEY clock username password w).2) ∧
  same_accounts (db w) (db (refresh_token J SECRET_KEY clock token w).2) ∧
  same_accounts (db w) (db (confirm_email J SECRET_KEY clock token w).2).
Proof.
  split; [apply login_keeps_accounts|].
  split; [apply refresh_token_keeps_accounts | apply confirm_email_keeps_accounts].
Qed.

Lemma writes_only_key_refl k rows : writes_only_key k rows rows.
Proof. induction rows; constructor; done. Qed.

Lemma writes_only_key_commit_row user f w :
  writes_only_key (user_id user) (db w) (db (commit_row user f w).2).
Proof.
  simpl. induction (db w) as [|u rows IH]; simpl; constructor; [|exact IH].
  intros Hne. rewrite decide_False by exact Hne. reflexivity.
Qed.

(** X14: a token route writes the rows of one account at most: there is a
    primary key such that every row with another key is, after [login],
    [refresh_token] or [confirm_email], what it was before, whatever the
    request and its outcome. *)
Theorem token_routes_write_one_account username password token w :
  (∃ k, writes_only_key k (db w)
          (db (login J P SECRET_KEY clock username password w).2)) ∧
  (∃ k, writes_only_key k (db w)
          (db (refresh_token J SECRET_KEY clock token w).2)) ∧
  (∃ k, writes_only_key k (db w)
          (db (confirm_email J SECRET_KEY clock token w).2)).
Proof.
  split; [|split].
  - unfold login, bind, get_user_by_email.
    destruct (find_user (VStr username) (db w)) as [u|]; step;
      [|exists 0; apply writes_only_key_refl].
    exists (user_id u).
    destruct (user_confirmed u); step; [|apply writes_only_key_refl].
    destruct (verify_password P password (user_password u)); step;
      [|apply writes_only_key_refl].
    rewrite create_access_token_eq, create_refresh_token_eq.
    apply (writes_only_key_commit_row u _ (mkWorld (db w) _)).
  - unfold refresh_token, bind.
    pose proof (decode_refresh_token_db J SECRET_KEY clock token w) as Hdb.
    destruct (decode_refresh_token J SECRET_KEY clock token w) as [[email|e] wa];
      simpl in Hdb; [|exists 0; rewrite <-Hdb; apply writes_only_key_refl].
    unfold get_user_by_email.
    destruct (find_user email (db wa)) as [u|]; step;
      [|exists 0; rewrite Hdb; apply writes_only_key_refl].
    exists (user_id u).
    destruct (decide (user_refresh_token u ≠ Some token)); step.
    + rewrite <-Hdb. apply (writes_only_key_commit_row u _ wa).
    + rewrite create_access_token_eq, create_refresh_token_eq.
      rewrite <-Hdb. apply (writes_only_key_commit_row u _ (mkWorld (db wa) _)).
  - unfold confirm_email, bind.
    pose proof (get_email_from_token_db J SECRET_KEY clock token w) as Hdb.
    destruct (get_email_from_token J SECRET_KEY clock token w) as [[email|e] wa];
      simpl in Hdb; [|exists 0; rewrite <-Hdb; apply writes_only_key_refl].
    unfold get_user_by_email.
    destruct (find_user email (db wa)) as [u|] eqn:Hfind; step;
      [|exists 0; rewrite Hdb; apply writes_only_key_refl].
    exists (user_id u).
    destruct (user_confirmed u); step; [rewrite Hdb; apply writes_only_key_refl|].
    unfold repository_users_confirm_email, bind, get_user_by_email.
    rewrite Hfind. rewrite <-Hdb. apply (writes_only_key_commit_row u _ wa).
Qed.

End Lifetimes.

Section Signup.

Context (J : Jose) (P : CryptContext) (B : Backend).
Context (SECRET_KEY : string) (clock : nat → Z).

Ltac step :=
  cbn -[create_access_token create_refresh_token create_email_token
        update_token jwt_decode decode_refresh_token get_email_from_token].

Lemma find_user_None email rows :
  find_user (VStr email) rows = None ↔ email ∉ List.map user_email rows.
Proof.
  unfold find_user. induction rows as [|u rows IH]; simpl.
  - split; [intros _; apply not_elem_of_nil | done].
  - rewrite not_elem_of_cons. destruct (bool_decide _) eqn:Hu.
    + apply bool_decide_eq_true in Hu. split; [done|]. intros [Hne _].
      congruence.
    + apply bool_decide_eq_false in Hu. rewrite IH. split; [|tauto].
      intros Hin. split; [|done]. congruence.
Qed.

Lemma find_user_app_new email rows u :
  find_user (VStr email) rows = None →
  user_email u = email →
  find_user (VStr email) (rows ++ [u]) = Some u.
Proof.
  unfold find_user. intros Hnone Hu. induction rows as [|u' rows IH]; simpl in *.
  - rewrite bool_decide_eq_true_2 by congruence. reflexivity.
  - destruct (bool_decide _); [done | exact (IH Hnone)].
Qed.

Lemma signup_existing_account body base_url w u :
  find_user (VStr (body_email body)) (db w) = Some u →
  signup P B body base_url w =
    (Raise (HTTPException 409 "Account already exists" []), w).
Proof.
  intros Hfind. unfold signup, bind, get_user_by_email. rewrite Hfind.
  reflexivity.
Qed.

Lemma signup_new_account body base_url w :
  find_user (VStr (body_email body)) (db w) = None →
  let new_user := new_account P B body (db w) in
  let w' := mkWorld (db w ++ [new_user]) (reads w) in
  signup P B body base_url w =
    (Ok (Committed
           (new_user,
            "User successfully created. Check your email for confirmation.",
            mkEmailTask (body_email body) (body_username body) base_url)),
     w') ∧
  find_user (VStr (body_email body)) (db w') = Some new_user.
Proof.
  intros Hfind new_user w'. split.
  - unfold signup, bind, get_user_by_email. rewrite Hfind. step.
    unfold create_user. step.
    rewrite bool_decide_eq_false_2 by (apply find_user_None; exact Hfind).
    reflexivity.
  - apply find_user_app_new; [exact Hfind | reflexivity].
Qed.

(** X15: the two outcomes of a signup.  For an address that has an account
    it is answered 409 "Account already exists" and changes nothing.  For
    a new address the commit goes through (the unique constraint on
    [email] does not fire) and one row is appended: not confirmed,
    without a refresh token, holding the hash of the password; the
    account is then found by its address, and the task queued is the mail
    to it. *)
Theorem signup_outcomes body base_url w :
  match find_user (VStr (body_email body)) (db w) with
  | Some _ =>
      signup P B body base_url w =
        (Raise (HTTPException 409 "Account already exists" []), w)
  | None =>
      let new_user := new_account P B body (db w) in
      let w' := mkWorld (db w ++ [new_user]) (reads w) in
      signup P B body base_url w =
        (Ok (Committed
               (new_user,
                "User successfully created. Check your email for confirmation.",
                mkEmailTask (body_email body) (body_username body) base_url)),
         w') ∧
      find_user (VStr (body_email body)) (db w') = Some new_user ∧
      user_confirmed new_user = false ∧
      user_refresh_token new_user = None ∧
      user_password new_user = pwd_hash P (body_password body)
  end.
Proof.
  destruct (find_user (VStr (body_email body)) (db w)) as [u|] eqn:Hfind.
  - exact (signup_existing_account _ _ _ _ Hfind).
  - destruct (signup_new_account body base_url w Hfind) as [Heq Hfound].
    done.
Qed.

(** X16: from signup to the first login.  After a signup for a new address
    a login with the password is refused with "Email not confirmed"; the
    token in the mail of the queued task, used within seven days,
    confirms the account, and the same login then returns tokens. *)
Theorem signup_confirm_login body base_url w r w1 message w2 :
  Jose_correct J →
  pwd_verify P (body_password body) (pwd_hash P (body_password body)) = true →
  signup P B body base_url w = (Ok (Committed r), w1) →
  run_task J SECRET_KEY clock r.2 w1 = (Ok message, w2) →
  clock (reads w2) ≤ clock (reads w1) + timedelta_days 7 →
  message_recipients message = [body_email body] ∧
  login J P SECRET_KEY clock (body_email body) (body_password body) w2 =
    (Raise (HTTPException 401 "Email not confirmed" []), w2) ∧
  ∃ w3,
    confirm_email J SECRET_KEY clock (template_token message) w2 =
      (Ok "Email confirmed", w3) ∧
    ∃ tm w4,
      login J P SECRET_KEY clock (body_email body) (body_password body) w3 =
        (Ok tm, w4).
Proof.
  intros HJ Hpwd Hsignup Htask Hnow.
  destruct (find_user (VStr (body_email body)) (db w)) as [u|] eqn:Hfind.
  { rewrite (signup_existing_account _ _ _ _ Hfind) in Hsignup. done. }
  destruct (signup_new_account body base_url w Hfind) as (Heq & Hfind1).
  rewrite Heq in Hsignup. injection Hsignup as <- <-.
  unfold run_task, send_email, bind in Htask. simpl in Htask.
  injection Htask as <- <-. simpl in *.
  set (new_user := new_account P B body (db w)) in *.
  set (w2 := mkWorld (db w ++ [new_user]) (S (S (reads w)))).
  set (c := (<["exp" := intdate (clock (reads w) + timedelta_days 7)]>
               (<["iat" := intdate (clock (S (reads w)))]>
                  {["sub" := VStr (body_email body)]}) : claims)).
  assert (Hc_iat : c !! "iat" = Some (VInt (timegm (clock (S (reads w)))))).
  { subst c. rewrite lookup_insert_ne by done. apply lookup_insert_eq. }
  assert (Hc_exp : c !! "exp" =
            Some (VInt (timegm (clock (reads w) + timedelta_days 7)))).
  { subst c. apply lookup_insert_eq. }
  assert (Hc_sub : c !! "sub" = Some (VStr (body_email body))).
  { subst c. rewrite !lookup_insert_ne by done. apply lookup_singleton_eq. }
  destruct (confirm_email_unconfirmed J SECRET_KEY clock
              (jws_sign J c SECRET_KEY) c _ _ _ new_user w2 (HJ _ _)
              Hc_iat Hc_exp Hc_sub (timegm_mono _ _ Hnow) Hfind1 eq_refl)
    as [Hconfirm Hfind3].
  split; [reflexivity|]. split.
  - unfold login, bind, get_user_by_email. simpl. rewrite Hfind1. reflexivity.
  - eexists. split; [exact Hconfirm|].
    eexists _, _.
    apply (login_eq J P SECRET_KEY clock _ _ _ _ Hfind3); [reflexivity|].
    exact Hpwd.
Qed.

(** X17: asking for the confirmation mail of an address that has no
    account raises the [AttributeError] of [user.confirmed] on [None]:
    the test [if user] comes after it. *)
Theorem request_email_unknown_address email base_url w :
  find_user (VStr email) (db w) = None →
  request_email email base_url w = (Raise (AttributeError "confirmed"), w).
Proof.
  intros Hfind. unfold request_email, bind, get_user_by_email. rewrite Hfind.
  reflexivity.
Qed.

(** X18: [update_avatar] on the address of an account returns the account
    with the new avatar, which is what the table then holds for that
    address; the other columns are as before.  For an address without an
    account it raises the [AttributeError] of the assignment to [None]. *)
Theorem update_avatar_round_trip email url w :
  match find_user email (db w) with
  | Some u =>
      ∃ w', update_avatar email url w = (Ok (set_avatar (Some url) u), w') ∧
            find_user email (db w') = Some (set_avatar (Some url) u) ∧
            user_refresh_token (set_avatar (Some url) u) = user_refresh_token u ∧
            user_confirmed (set_avatar (Some url) u) = user_confirmed u ∧
            user_password (set_avatar (Some url) u) = user_password u
  | None => update_avatar email url w = (Raise (AttributeError "avatar"), w)
  end.
Proof.
  destruct (find_user email (db w)) as [u|] eqn:Hfind.
  - exists (commit_row u (set_avatar (Some url)) w).2. split; [|split; [|done]].
    + unfold update_avatar, bind, get_user_by_email. rewrite Hfind. reflexivity.
    + apply find_user_commit_row; [reflexivity | exact Hfind].
  - unfold update_avatar, bind, get_user_by_email. rewrite Hfind. reflexivity.
Qed.

(** X19: the addresses of the table stay pairwise distinct: a signup
    appends a row only for an address that is not there, and the token
    routes do not write the column. *)
Theorem emails_stay_unique body base_url username password token w :
  NoDup (List.map user_email (db w)) →
  NoDup (List.map user_email (db (signup P B body base_url w).2)) ∧
  NoDup (List.map user_email
           (db (login J P SECRET_KEY clock username password w).2)) ∧
  NoDup (List.map user_email (db (refresh_token J SECRET_KEY clock token w).2)) ∧
  NoDup (List.map user_email (db (confirm_email J SECRET_KEY clock token w).2)).
Proof.
  intros Hnodup.
  assert (Hsame : ∀ rows', same_accounts (db w) rows' →
                    NoDup (List.map user_email rows')).
  { intros rows' Hrows.
    replace (List.map user_email rows') with (List.map user_email (db w));
      [exact Hnodup|].
    clear Hnodup.
    induction Hrows as [|u u' rows rows' [Hcred _] _ IH]; simpl; [done|].
    f_equal; [|exact IH]. unfold credentials in Hcred. congruence. }
  pose proof (login_keeps_accounts J P SECRET_KEY clock username password w)
    as Hlogin.
  pose proof (refresh_token_keeps_accounts J SECRET_KEY clock token w)
    as Hrefresh.
  pose proof (confirm_email_keeps_accounts J SECRET_KEY clock token w)
    as Hconfirm.
  split; [|auto].
  destruct (find_user (VStr (body_email body)) (db w)) as [u|] eqn:Hfind.
  - rewrite (signup_existing_account _ _ _ _ Hfind). exact Hnodup.
  - destruct (signup_new_account body base_url w Hfind) as [-> _]. simpl.
    rewrite map_app. simpl. apply list.NoDup_app. split; [exact Hnodup|].
    split; [|apply list.NoDup_singleton].
    intros e He ->%list_elem_of_singleton.
    apply find_user_None in Hfind. exact (Hfind He).
Qed.

End Signup.

(** ** Properties of the contacts *)

Section Calendar.

Lemma days_in_month_bounds y m : 28 ≤ days_in_month y m ≤ 31.
Proof.
  unfold days_in_month.
  destruct (m =? 2); [destruct (is_leap y); lia|].
  destruct ((m =? 4) || (m =? 6) || (m =? 9) || (m =? 11)); lia.
Qed.

Lemma add_days_S k d : add_days (S k) d = next_day (add_days k d).
Proof. reflexivity. Qed.

Lemma add_days_short (k : nat) d :
  valid_date d → (k ≤ 28)%nat →
  add_days k d =
    if decide (day d + Z.of_nat k ≤ days_in_month (year d) (month d))
    then mkDate (year d) (month d) (day d + Z.of_nat k)
    else month_after d (day d + Z.of_nat k - days_in_month (year d) (month d)).
Proof.
  intros [Hm Hd]. induction k as [|k IH]; intros Hk.
  - simpl. rewrite decide_True by lia. destruct d; simpl. f_equal. lia.
  - rewrite add_days_S, IH by lia. clear IH.
    pose proof (days_in_month_bounds (year d) (month d)) as Hdim.
    destruct (decide (day d + Z.of_nat k ≤ _)) as [Hin|Hout].
    + unfold next_day. simpl.
      destruct (decide (day d + Z.of_nat (S k) ≤ _)) as [Hin'|Hout'].
      * rewrite (proj2 (Z.ltb_lt _ _)) by lia. f_equal. lia.
      * rewrite (proj2 (Z.ltb_ge _ _)) by lia. unfold month_after.
        destruct (month d <? 12); f_equal; lia.
    + rewrite decide_False by lia. unfold month_after, next_day.
      destruct (month d <? 12); simpl.
      * pose proof (days_in_month_bounds (year d) (month d + 1)).
        rewrite (proj2 (Z.ltb_lt _ _)) by lia. f_equal. lia.
      * pose proof (days_in_month_bounds (year d + 1) 1).
        rewrite (proj2 (Z.ltb_lt _ _)) by lia. f_equal. lia.
Qed.

Lemma month_after_month d n : month (month_after d n) ≠ month d.
Proof. unfold month_after. destruct (month d <? 12) eqn:H; simpl; lia. Qed.

End Calendar.

Section Contacts.

Import repository_contacts.

Implicit Types (user : User) (rows : list Contact) (c : Contact).

Lemma owned_by_spec user c :
  owned_by user c = true ↔ contact_user_id c = Some (user_id user).
Proof. unfold owned_by. apply bool_decide_eq_true. Qed.

Lemma find_contact_some (p : Contact → bool) rows c :
  List.find p rows = Some c → c ∈ rows ∧ p c = true.
Proof.
  intros H. apply List.find_some in H as [Hin Hp]. split; [|exact Hp].
  apply list_elem_of_In. exact Hin.
Qed.

Lemma elem_of_filter_bool (p : Contact → bool) rows c :
  c ∈ List.filter p rows ↔ c ∈ rows ∧ p c = true.
Proof. rewrite !list_elem_of_In. apply List.filter_In. Qed.

Lemma elem_of_page (skip limit : nat) (l : list Contact) c :
  c ∈ take limit (drop skip l) → c ∈ l.
Proof.
  intros H. apply subseteq_take in H.
  apply list_elem_of_lookup in H as [i H]. rewrite lookup_drop in H.
  apply (list_elem_of_lookup_2 _ _ _ H).
Qed.

Lemma filter_filter_bool (p q : Contact → bool) rows :
  List.filter q (List.filter p rows) = List.filter (λ c, p c && q c) rows.
Proof.
  induction rows as [|c rows IH]; simpl; [reflexivity|].
  destruct (p c); simpl; [|exact IH]. destruct (q c); simpl; rewrite IH; done.
Qed.

Lemma filter_ext_bool (p q : Contact → bool) rows :
  (∀ c, p c = q c) → List.filter p rows = List.filter q rows.
Proof. intros H. apply List.filter_ext. exact H. Qed.

(** [get_contacts] is a page of the selected rows. *)
Lemma get_contacts_eq first_name last_name email skip limit user rows :
  get_contacts first_name last_name email skip limit user rows =
    take limit (drop skip
      (List.filter (selects first_name last_name email user) rows)).
Proof.
  unfold get_contacts. f_equal. f_equal.
  destruct first_name as [f|], last_name as [l|], email as [e|]; simpl;
    rewrite ?filter_filter_bool; apply filter_ext_bool; intros c;
    unfold selects; destruct (owned_by user c); simpl;
    repeat (destruct (bool_decide _)); reflexivity.
Qed.

Lemma selects_spec first_name last_name email user c :
  selects first_name last_name email user c = true ↔
    contact_user_id c = Some (user_id user) ∧
    (∀ f, first_name = Some f → contact_first_name c = f) ∧
    (∀ l, last_name = Some l → contact_last_name c = l) ∧
    (∀ e, email = Some e → contact_email c = Some e).
Proof.
  unfold selects. rewrite !andb_true_iff, owned_by_spec.
  destruct first_name as [f|], last_name as [l|], email as [e|];
    rewrite ?bool_decide_eq_true;
    (split;
     [intros; destruct_and!; repeat split; intros; simplify_eq; done
     |intros (? & Hf & Hl & He); repeat split; auto]).
Qed.

(** X20: what the reads return belongs to the user who asks: every contact
    in a page of [get_contacts] or of [birthdays_in_7_days], and the
    contact [get_contact] or [check_contact] finds, is a row of the table
    whose [user_id] is the id of that user. *)
Theorem contact_reads_are_owned user rows c :
  (∀ first_name last_name email skip limit,
     c ∈ get_contacts first_name last_name email skip limit user rows →
     c ∈ rows ∧ contact_user_id c = Some (user_id user)) ∧
  (∀ today skip limit,
     c ∈ birthdays_in_7_days today skip limit user rows →
     c ∈ rows ∧ contact_user_id c = Some (user_id user)) ∧
  (∀ id, get_contact id user rows = Some c →
     c ∈ rows ∧ contact_user_id c = Some (user_id user) ∧ contact_id c = id) ∧
  (∀ email phone, check_contact email phone user rows = Some c →
     c ∈ rows ∧ contact_user_id c = Some (user_id user)).
Proof.
  split; [|split; [|split]].
  - intros first_name last_name email skip limit Hc.
    rewrite get_contacts_eq in Hc.
    apply elem_of_page, elem_of_filter_bool in Hc as [Hin Hp].
    apply selects_spec in Hp. tauto.
  - intros today skip limit Hc. unfold birthdays_in_7_days in Hc.
    apply elem_of_page, elem_of_filter_bool in Hc as [Hin Hp].
    apply andb_true_iff in Hp as [Howned _].
    split; [exact Hin | apply owned_by_spec, Howned].
  - intros id Hc. apply find_contact_some in Hc as [Hin Hp].
    apply andb_true_iff in Hp as [Hid Howned].
    apply bool_decide_eq_true in Hid. rewrite owned_by_spec in Howned. done.
  - intros email phone Hc. apply find_contact_some in Hc as [Hin Hp].
    apply andb_true_iff in Hp as [Howned _].
    rewrite owned_by_spec in Howned. done.
Qed.

(** X21: what [get_contacts] selects, seen without paging: the rows of the
    user that have the first name, the last name and the e-mail asked
    for, each where one is asked for; a contact without e-mail matches no
    e-mail. *)
Theorem get_contacts_selects first_name last_name email limit user rows c :
  (length rows ≤ limit)%nat →
  c ∈ get_contacts first_name last_name email 0 limit user rows ↔
    c ∈ rows ∧ contact_user_id c = Some (user_id user) ∧
    (∀ f, first_name = Some f → contact_first_name c = f) ∧
    (∀ l, last_name = Some l → contact_last_name c = l) ∧
    (∀ e, email = Some e → contact_email c = Some e).
Proof.
  intros Hlimit. rewrite get_contacts_eq, drop_0, take_ge.
  - rewrite elem_of_filter_bool, selects_spec. reflexivity.
  - pose proof (List.filter_length_le
                  (selects first_name last_name email user) rows). lia.
Qed.

(** X22: pages follow one another: the page of [b] contacts after [a] and
    the page of [b'] after [a + b] make up the page of [b + b'] after [a],
    and a page is never longer than its limit. *)
Theorem get_contacts_pages first_name last_name email (a b b' : nat) user rows :
  get_contacts first_name last_name email a b user rows ++
  get_contacts first_name last_name email (a + b) b' user rows =
    get_contacts first_name last_name email a (b + b') user rows ∧
  (length (get_contacts first_name last_name email a b user rows) ≤ b)%nat.
Proof.
  rewrite !get_contacts_eq. split.
  - rewrite <-drop_drop. apply take_take_drop.
  - rewrite length_take. lia.
Qed.

(** *** Writes *)

Lemma find_none_bool (p : Contact → bool) rows :
  (∀ c, c ∈ rows → p c = false) → List.find p rows = None.
Proof.
  intros H. induction rows as [|c rows IH]; simpl; [reflexivity|].
  rewrite (H c) by apply list_elem_of_here.
  apply IH. intros c' Hc'. apply H. apply list_elem_of_further, Hc'.
Qed.

Lemma same_id_same_row rows c c' :
  NoDup (List.map contact_id rows) →
  c ∈ rows → c' ∈ rows → contact_id c = contact_id c' → c = c'.
Proof.
  induction rows as [|r rows IH]; simpl; intros Hnd Hc Hc' Hid.
  - apply elem_of_nil in Hc. done.
  - apply list.NoDup_cons in Hnd as [Hr Hnd].
    apply elem_of_cons in Hc as [->|Hc], Hc' as [->|Hc'].
    + reflexivity.
    + exfalso. apply Hr. rewrite Hid. apply (list_elem_of_fmap_2 contact_id), Hc'.
    + exfalso. apply Hr. rewrite <-Hid. apply (list_elem_of_fmap_2 contact_id), Hc.
    + apply IH; assumption.
Qed.

(** X23: the contact of another user is out of reach.  By its id it is not
    found: reading, updating and removing it are answered 404 and leave
    the table as it is; and no update or removal of the user, whatever
    id it names, changes or drops that row. *)
Theorem foreign_contact_out_of_reach user rows c id body :
  NoDup (List.map contact_id rows) →
  c ∈ rows →
  contact_user_id c ≠ Some (user_id user) →
  routes_contacts.read_contact (contact_id c) user rows =
    Raise (HTTPException 404 "Contact not found" []) ∧
  routes_contacts.update_contact body (contact_id c) user rows =
    (Raise (HTTPException 404 "Contact not found" []), rows) ∧
  routes_contacts.remove_contact (contact_id c) user rows =
    (Raise (HTTPException 404 "Contact not found" []), rows) ∧
  c ∈ (routes_contacts.update_contact body id user rows).2 ∧
  c ∈ (routes_contacts.remove_contact id user rows).2.
Proof.
  intros Hnd Hc Hforeign.
  assert (Hnone : get_contact (contact_id c) user rows = None).
  { apply find_none_bool. intros c' Hc'.
    destruct (bool_decide (contact_id c' = contact_id c)) eqn:Hid; [|done].
    apply bool_decide_eq_true in Hid.
    rewrite (same_id_same_row rows c' c Hnd Hc' Hc Hid). simpl.
    apply bool_decide_eq_false. exact Hforeign. }
  assert (Hother : ∀ c', get_contact id user rows = Some c' →
                         contact_id c ≠ contact_id c').
  { intros c' Hc' Hid. apply find_contact_some in Hc' as [Hin Hp].
    apply andb_true_iff in Hp as [_ Howned]. apply owned_by_spec in Howned.
    rewrite <-(same_id_same_row rows c c' Hnd Hc Hin Hid) in Howned. done. }
  unfold routes_contacts.read_contact, routes_contacts.update_contact,
    routes_contacts.remove_contact, update_contact, remove_contact.
  rewrite Hnone. split; [done|]. split; [done|]. split; [done|].
  destruct (get_contact id user rows) as [c'|] eqn:Hfound; [|done].
  specialize (Hother c' eq_refl). split.
  - destruct (decide _); simpl; [|exact Hc].
    apply list_elem_of_fmap. exists c. rewrite decide_False by exact Hother.
    done.
  - simpl. apply elem_of_filter_bool. split; [exact Hc|].
    rewrite bool_decide_eq_false_2 by exact Hother. reflexivity.
Qed.

Lemma contact_key_fresh email phone user rows :
  check_contact email phone user rows = None →
  (email, phone, user_id user) ∉ omap contact_key rows.
Proof.
  intros Hcheck Hin. apply list_elem_of_omap in Hin as (c & Hc & Hkey).
  unfold check_contact in Hcheck.
  apply list_elem_of_In in Hc.
  pose proof (List.find_none _ _ Hcheck c Hc) as Hp. simpl in Hp.
  unfold contact_key in Hkey.
  destruct (contact_email c) as [e|] eqn:He; [|done].
  destruct (contact_user_id c) as [uid|] eqn:Huid; [|done].
  injection Hkey as -> Hphone ->.
  unfold owned_by in Hp. rewrite Huid in Hp.
  rewrite bool_decide_eq_true_2 in Hp by done.
  rewrite (bool_decide_eq_true_2 (Some email = Some email)) in Hp by done.
  done.
Qed.

(** X24: creating a contact.  If the user has a contact with the e-mail or
    with the phone of the body, the answer is 409 and the table is left
    as it is; if not, the commit is never refused by the unique
    constraint: the contact is appended, with the body's columns and the
    user as owner, and the table still meets the constraint. *)
Theorem create_contact_checked new_id body user rows :
  unique_contact_user rows →
  match check_contact (base_email body) (base_phone body) user rows with
  | Some _ =>
      routes_contacts.create_contact new_id body user rows =
        (Raise (HTTPException 409 "Email or phone number exists." []), rows)
  | None =>
      ∃ contact,
        routes_contacts.create_contact new_id body user rows =
          (Ok (Committed contact), rows ++ [contact]) ∧
        contact_id contact = new_id ∧
        contact_user_id contact = Some (user_id user) ∧
        contact_email contact = Some (base_email body) ∧
        contact_phone contact = base_phone body ∧
        unique_contact_user (rows ++ [contact])
  end.
Proof.
  intros Hunique. unfold routes_contacts.create_contact.
  destruct (check_contact _ _ user rows) as [c|] eqn:Hcheck; [reflexivity|].
  unfold create_contact.
  set (contact := mkContact new_id _ _ _ _ _ _ _).
  assert (Hnew : unique_contact_user (rows ++ [contact])).
  { unfold unique_contact_user. rewrite omap_app. simpl.
    apply list.NoDup_app. split; [exact Hunique|].
    split; [|apply list.NoDup_singleton].
    intros k Hk ->%list_elem_of_singleton.
    exact (contact_key_fresh _ _ _ _ Hcheck Hk). }
  rewrite decide_True by exact Hnew. exists contact. done.
Qed.

Lemma find_map_bool (p : Contact → bool) (g : Contact → Contact) rows :
  (∀ c, p (g c) = p c) →
  List.find p (List.map g rows) = g <$> List.find p rows.
Proof.
  intros Hg. induction rows as [|c rows IH]; simpl; [reflexivity|].
  rewrite Hg. destruct (p c); [reflexivity | exact IH].
Qed.

(** X25: an update that goes through can be read back: the contact found
    under the id afterwards is the one returned, it has the columns of the
    body, and it keeps its id and its owner. *)
Theorem update_contact_round_trip id body user rows contact rows' :
  update_contact id body user rows = (Committed (Some contact), rows') →
  get_contact id user rows' = Some contact ∧
  routes_contacts.read_contact id user rows' = Ok contact ∧
  contact_id contact = id ∧
  contact_user_id contact = Some (user_id user) ∧
  contact_first_name contact = base_first_name body ∧
  contact_last_name contact = base_last_name body ∧
  contact_email contact = Some (base_email body) ∧
  contact_phone contact = base_phone body ∧
  contact_date_of_birth contact = Some (base_date_of_birth body) ∧
  contact_additional_data contact = base_additional_data body ∧
  length rows' = length rows.
Proof.
  unfold update_contact.
  destruct (get_contact id user rows) as [c0|] eqn:Hfound; [|intros [=]].
  destruct (decide _) as [Hunique|]; [|intros [=]]. intros [= <- <-].
  destruct (find_contact_some _ _ _ Hfound) as [Hin Hp].
  apply andb_true_iff in Hp as [Hid Howned].
  apply bool_decide_eq_true in Hid. apply owned_by_spec in Howned.
  assert (Hget : get_contact id user
            (List.map (λ c, if decide (contact_id c = contact_id c0)
                            then write_contact body c else c) rows) =
          Some (write_contact body c0)).
  { unfold get_contact. rewrite find_map_bool.
    - fold (get_contact id user rows). rewrite Hfound. simpl.
      rewrite decide_True; reflexivity.
    - intros c. destruct (decide _); reflexivity. }
  split; [exact Hget|]. split.
  { unfold routes_contacts.read_contact. rewrite Hget. reflexivity. }
  simpl. rewrite length_map. done.
Qed.

Lemma omap_key_dup (g : Contact → Contact) rows c c' k :
  c ∈ rows → c' ∈ rows → c ≠ c' →
  contact_key (g c) = Some k → contact_key (g c') = Some k →
  ¬ NoDup (omap contact_key (List.map g rows)).
Proof.
  intros Hc Hc' Hne Hk Hk'.
  induction rows as [|r rows IH]; [by apply elem_of_nil in Hc|].
  simpl. intros Hnd.
  apply elem_of_cons in Hc as [->|Hc], Hc' as [->|Hc']; [done| | |].
  - rewrite Hk in Hnd. apply list.NoDup_cons in Hnd as [Hnotin _].
    apply Hnotin, list_elem_of_omap. exists (g c'). split; [|exact Hk'].
    apply (list_elem_of_fmap_2 g), Hc'.
  - rewrite Hk' in Hnd. apply list.NoDup_cons in Hnd as [Hnotin _].
    apply Hnotin, list_elem_of_omap. exists (g c). split; [|exact Hk].
    apply (list_elem_of_fmap_2 g), Hc.
  - apply (IH Hc Hc'). destruct (contact_key (g r)); [|exact Hnd].
    apply list.NoDup_cons in Hnd as [_ Hnd]. exact Hnd.
Qed.

(** X26: an update is not checked the way a creation is.  Giving a contact
    the e-mail and the phone that another contact of the same user has
    makes the commit fail on the unique constraint: the handler ends in
    an [IntegrityError], not in a 409, and the table is left as it was. *)
Theorem update_contact_conflict id body user rows contact other :
  get_contact id user rows = Some contact →
  other ∈ rows →
  contact_id other ≠ id →
  contact_user_id other = Some (user_id user) →
  contact_email other = Some (base_email body) →
  contact_phone other = base_phone body →
  routes_contacts.update_contact body id user rows =
    (Ok (IntegrityError "unique_contact_user"), rows).
Proof.
  intros Hfound Hother Hid Howner Hemail Hphone.
  destruct (find_contact_some _ _ _ Hfound) as [Hin Hp].
  apply andb_true_iff in Hp as [Hcid Howned].
  apply bool_decide_eq_true in Hcid. apply owned_by_spec in Howned.
  unfold routes_contacts.update_contact, update_contact. rewrite Hfound.
  rewrite decide_False; [reflexivity|].
  apply (omap_key_dup _ rows contact other
           (base_email body, base_phone body, user_id user)).
  - exact Hin.
  - exact Hother.
  - intros ->. congruence.
  - rewrite decide_True by reflexivity. unfold contact_key. simpl.
    rewrite Howned. reflexivity.
  - rewrite decide_False by congruence. unfold contact_key.
    rewrite Hemail, Howner, Hphone. reflexivity.
Qed.

(** X27: a removal returns the contact it removes, and the contact is gone:
    its id is not found afterwards, so that a second removal is answered
    404 and changes nothing; the rows left are rows that were there. *)
Theorem remove_contact_removes id user rows contact rows' :
  routes_contacts.remove_contact id user rows = (Ok contact, rows') →
  contact ∈ rows ∧
  contact_id contact = id ∧
  get_contact id user rows' = None ∧
  routes_contacts.remove_contact id user rows' =
    (Raise (HTTPException 404 "Contact not found" []), rows') ∧
  (∀ c, c ∈ rows' ↔ c ∈ rows ∧ contact_id c ≠ id).
Proof.
  unfold routes_contacts.remove_contact, remove_contact.
  destruct (get_contact id user rows) as [c0|] eqn:Hfound; [|intros [=]].
  intros [= <- <-].
  destruct (find_contact_some _ _ _ Hfound) as [Hin Hp].
  apply andb_true_iff in Hp as [Hid _]. apply bool_decide_eq_true in Hid.
  assert (Hrows : ∀ c,
            c ∈ List.filter
                  (λ c, negb (bool_decide (contact_id c = contact_id c0))) rows ↔
            c ∈ rows ∧ contact_id c ≠ id).
  { intros c. rewrite elem_of_filter_bool, negb_true_iff, bool_decide_eq_false.
    rewrite Hid. reflexivity. }
  assert (Hgone : get_contact id user
            (List.filter (λ c, negb (bool_decide (contact_id c = contact_id c0)))
                         rows) = None).
  { apply find_none_bool. intros c Hc. apply Hrows in Hc as [_ Hne].
    rewrite bool_decide_eq_false_2 by exact Hne. reflexivity. }
  split; [exact Hin|]. split; [exact Hid|]. split; [exact Hgone|].
  split; [|exact Hrows]. rewrite Hgone. reflexivity.
Qed.

(** *** Birthdays *)

(** X28: no birthday of the coming week is missed.  A contact of the user
    whose date of birth falls, by month and day, on today or on one of the
    seven days after it is among the contacts [birthdays_in_7_days]
    selects, also when the week runs into the next month or year. *)
Theorem birthdays_in_7_days_complete today (k : nat) user rows c b :
  valid_date today →
  (k ≤ 7)%nat →
  c ∈ rows →
  contact_user_id c = Some (user_id user) →
  contact_date_of_birth c = Some b →
  month b = month (add_days k today) →
  day b = day (add_days k today) →
  c ∈ birthdays_in_7_days today 0 (length rows) user rows.
Proof.
  intros Hvalid Hk Hc Howned Hbirth Hmonth Hday.
  rewrite (add_days_short k today Hvalid) in Hmonth, Hday by lia.
  unfold birthdays_in_7_days.
  rewrite (add_days_short 7 today Hvalid) by lia.
  rewrite drop_0, take_ge by (etrans; [apply List.filter_length_le|done]).
  apply elem_of_filter_bool. split; [exact Hc|].
  rewrite (proj2 (owned_by_spec user c) Howned), Hbirth.
  unfold in_birthday_window. rewrite Hmonth, Hday. cbn [andb].
  pose proof (month_after_month today) as Hafter.
  destruct Hvalid as [Hm Hd].
  destruct (decide (day today + Z.of_nat 7 ≤ _)) as [Hin7|Hout7];
    destruct (decide (day today + Z.of_nat k ≤ _)) as [Hink|Houtk]; simpl.
  - rewrite Z.eqb_refl. simpl.
    rewrite andb_true_iff, Z.leb_le, Z.leb_le. lia.
  - lia.
  - destruct (month today =? month (month_after today _)) eqn:Heq.
    { apply Z.eqb_eq in Heq. exfalso. exact (Hafter _ (eq_sym Heq)). }
    cbn [andb orb]. rewrite Z.eqb_refl. cbn [andb]. apply Z.leb_le. lia.
  - assert (Hmonthk : ∀ n n', month (month_after today n) =
                              month (month_after today n')).
    { intros n n'. unfold month_after. destruct (month today <? 12); reflexivity. }
    assert (Hdayk : ∀ n, day (month_after today n) = n).
    { intros n. unfold month_after. destruct (month today <? 12); reflexivity. }
    destruct (month today =? month (month_after today _)) eqn:Heq.
    { apply Z.eqb_eq in Heq. exfalso. exact (Hafter _ (eq_sym Heq)). }
    rewrite !Hdayk.
    rewrite (proj2 (Z.eqb_eq _ _) (Hmonthk _ _)).
    rewrite (proj2 (Z.leb_le _ _)) by lia. reflexivity.
Qed.

End Contacts.

(** ** The further properties on concrete requests *)

Lemma login_failure_leaves_world_witness :
  example_world = example_world ∧
  ∃ detail,
    HTTPException 401 "Email not confirmed" [] = HTTPException 401 detail [] ∧
    (detail = "Invalid email" ∨ detail = "Email not confirmed" ∨
     detail = "Invalid password").
Proof.
  apply (login_failure_leaves_world symbolic_jose plain_crypt example_key
           same_second_clock "b@example.com" "hunter2" example_world).
  vm_compute. reflexivity.
Defined.

Lemma login_then_current_user_witness :
  get_current_user symbolic_jose example_key same_second_clock alice_access
                   (mkWorld [alice; bob] 4) =
    (Ok alice, mkWorld [alice; bob] 5).
Proof.
  apply (login_then_current_user symbolic_jose plain_crypt example_key
           same_second_clock "a@example.com" "secret" logged_out_world
           alice_logged_out (mkTokenModel alice_access alice_refresh "bearer")
           (mkWorld [alice; bob] 4)).
  - apply symbolic_jose_correct.
  - vm_compute. reflexivity.
  - vm_compute. reflexivity.
  - vm_compute. discriminate.
Defined.

Lemma refresh_success_witness :
  let refresh :=
    refresh_token_at symbolic_jose example_key hourly_clock alice_data 3 in
  refresh_token symbolic_jose example_key hourly_clock alice_refresh
                example_world =
    (Ok (mkTokenModel
           (access_token_at symbolic_jose example_key hourly_clock alice_data 1)
           refresh "bearer"),
     mkWorld [set_refresh_token (Some refresh) alice; bob] 5) ∧
  find_user (VStr "a@example.com")
            [set_refresh_token (Some refresh) alice; bob] =
    Some (set_refresh_token (Some refresh) alice).
Proof.
  apply (refresh_success symbolic_jose example_key hourly_clock alice_refresh
           example_world alice_refresh_claims (mkWorld [alice; bob] 1)
           (VStr "a@example.com") alice).
  - vm_compute. reflexivity.
  - vm_compute. reflexivity.
  - vm_compute. reflexivity.
  - vm_compute. reflexivity.
  - reflexivity.
Defined.

Lemma login_then_refresh_witness :
  ∃ tm' w2,
    refresh_token symbolic_jose example_key hourly_clock
      (refresh_token_at symbolic_jose example_key hourly_clock alice_data 2)
      (login symbolic_jose plain_crypt example_key hourly_clock
             "a@example.com" "secret" logged_out_world).2 = (Ok tm', w2) ∧
    user_refresh_token <$> find_user (VStr "a@example.com") (db w2) =
      Some (Some (refresh_token_field tm')).
Proof.
  apply (login_then_refresh symbolic_jose plain_crypt example_key hourly_clock
           "a@example.com" "secret" logged_out_world alice_logged_out
           (mkTokenModel
              (access_token_at symbolic_jose example_key hourly_clock
                               alice_data 0)
              (refresh_token_at symbolic_jose example_key hourly_clock
                                alice_data 2) "bearer")).
  - apply symbolic_jose_correct.
  - vm_compute. reflexivity.
  - vm_compute. reflexivity.
  - vm_compute. discriminate.
Defined.

Lemma get_current_user_absent_account_witness :
  get_current_user symbolic_jose example_key same_second_clock nobody_access
                   example_world =
    (Raise credentials_exception, mkWorld [alice; bob] 1).
Proof.
  apply (get_current_user_absent_account symbolic_jose example_key
           same_second_clock nobody_access example_world nobody_access_claims
           (mkWorld [alice; bob] 1) "n@example.com").
  - vm_compute. reflexivity.
  - vm_compute. reflexivity.
  - vm_compute. reflexivity.
  - vm_compute. reflexivity.
Defined.

Lemma email_token_round_trip_witness :
  get_email_from_token symbolic_jose example_key same_second_clock
                       bob_email_token (mkWorld [alice; bob] 2) =
    (Ok (VStr "b@example.com"), mkWorld [alice; bob] 3).
Proof.
  apply (email_token_round_trip symbolic_jose example_key same_second_clock
           "b@example.com" example_world bob_email_token
           (mkWorld [alice; bob] 2) (mkWorld [alice; bob] 2)).
  - apply symbolic_jose_correct.
  - reflexivity.
  - vm_compute. discriminate.
Defined.

Lemma email_token_as_bearer_unhandled_witness :
  decode_refresh_token symbolic_jose example_key same_second_clock
                       bob_email_token (mkWorld [alice; bob] 2) =
    (Raise (KeyError "scope"), mkWorld [alice; bob] 3) ∧
  get_current_user symbolic_jose example_key same_second_clock
                   bob_email_token (mkWorld [alice; bob] 2) =
    (Raise (KeyError "scope"), mkWorld [alice; bob] 3).
Proof.
  apply (email_token_as_bearer_unhandled symbolic_jose example_key
           same_second_clock "b@example.com" example_world bob_email_token
           (mkWorld [alice; bob] 2) (mkWorld [alice; bob] 2)).
  - apply symbolic_jose_correct.
  - reflexivity.
  - vm_compute. discriminate.
Defined.

Lemma confirm_email_then_login_witness :
  ∃ w',
    confirm_email symbolic_jose example_key same_second_clock bob_email_token
                  example_world = (Ok "Email confirmed", w') ∧
    find_user (VStr "b@example.com") (db w') = Some (set_confirmed true bob) ∧
    login symbolic_jose plain_crypt example_key same_second_clock
          "b@example.com" "hunter2" example_world =
      (Raise (HTTPException 401 "Email not confirmed" []), example_world) ∧
    ∃ tm w'',
      login symbolic_jose plain_crypt example_key same_second_clock
            "b@example.com" "hunter2" w' = (Ok tm, w'').
Proof.
  apply (confirm_email_then_login symbolic_jose plain_crypt example_key
           same_second_clock bob_email_token bob_email_claims
           1700000000 1700604800 "b@example.com" bob "hunter2" example_world).
  - apply symbolic_jose_correct.
  - vm_compute. reflexivity.
  - vm_compute. reflexivity.
  - vm_compute. reflexivity.
  - vm_compute. discriminate.
  - reflexivity.
  - reflexivity.
  - reflexivity.
Defined.

Lemma confirm_email_unknown_subject_witness :
  confirm_email symbolic_jose example_key same_second_clock nobody_email_token
                example_world =
    (Raise (HTTPException 400 "Verification error" []), mkWorld [alice; bob] 1).
Proof.
  apply (confirm_email_unknown_subject symbolic_jose example_key
           same_second_clock nobody_email_token nobody_email_claims
           1700000000 1700604800 "n@example.com" example_world).
  - apply symbolic_jose_correct.
  - vm_compute. reflexivity.
  - vm_compute. reflexivity.
  - vm_compute. reflexivity.
  - vm_compute. discriminate.
  - reflexivity.
Defined.

(** A token that lasts one second, on a clock that moves an hour per
    reading: issued at the readings 0 and 1, refused at the reading 2. *)
Lemma access_token_lifetime_witness :
  ∃ token,
    create_access_token symbolic_jose example_key hourly_clock alice_data
                        (Some 1) example_world =
      (Ok token, mkWorld [alice; bob] 2) ∧
    get_current_user symbolic_jose example_key hourly_clock token
                     (mkWorld [alice; bob] 2) =
      (Raise credentials_exception, mkWorld [alice; bob] 3).
Proof.
  eexists. split; [reflexivity|].
  apply (access_token_lifetime symbolic_jose example_key hourly_clock
           "a@example.com" (Some 1) example_world _ (mkWorld [alice; bob] 2)
           (mkWorld [alice; bob] 2) alice).
  - apply symbolic_jose_correct.
  - reflexivity.
  - reflexivity.
Defined.

Lemma zero_lifetime_is_the_default_witness :
  get_current_user symbolic_jose example_key same_second_clock alice_access
                   (mkWorld [alice; bob] 2) =
    (Ok alice, mkWorld [alice; bob] 3).
Proof.
  apply (zero_lifetime_is_the_default symbolic_jose example_key
           same_second_clock "a@example.com" example_world alice_access
           (mkWorld [alice; bob] 2) (mkWorld [alice; bob] 2) alice).
  - apply symbolic_jose_correct.
  - reflexivity.
  - reflexivity.
  - vm_compute. discriminate.
Defined.

(** carol signs up, is refused at the login, confirms with the token of
    the mail, and logs in. *)
Lemma signup_confirm_login_witness :
  let w1 := (signup plain_crypt example_backend carol_body "http://host/"
                    example_world).2 in
  let message :=
    mkMessageSchema "Confirm your email " ["c@example.com"] "http://host/"
      "carol"
      (jws_sign symbolic_jose
         (<["exp" := intdate (1700000000000000 + timedelta_days 7)]>
            (<["iat" := intdate 1700000000000001]>
               {["sub" := VStr "c@example.com"]})) example_key) in
  let w2 := mkWorld (db w1) 2 in
  message_recipients message = ["c@example.com"] ∧
  login symbolic_jose plain_crypt example_key same_second_clock
        "c@example.com" "secret1" w2 =
    (Raise (HTTPException 401 "Email not confirmed" []), w2) ∧
  ∃ w3,
    confirm_email symbolic_jose example_key same_second_clock
                  (template_token message) w2 = (Ok "Email confirmed", w3) ∧
    ∃ tm w4,
      login symbolic_jose plain_crypt example_key same_second_clock
            "c@example.com" "secret1" w3 = (Ok tm, w4).
Proof.
  intros w1 message w2.
  apply (signup_confirm_login symbolic_jose plain_crypt example_backend
           example_key same_second_clock carol_body "http://host/"
           example_world
           (new_account plain_crypt example_backend carol_body [alice; bob],
            "User successfully created. Check your email for confirmation.",
            mkEmailTask "c@example.com" "carol" "http://host/")
           w1 message w2).
  - apply symbolic_jose_correct.
  - reflexivity.
  - reflexivity.
  - reflexivity.
  - vm_compute. discriminate.
Defined.

Lemma request_email_unknown_address_witness :
  request_email "n@example.com" "http://host/" example_world =
    (Raise (AttributeError "confirmed"), example_world).
Proof.
  apply (request_email_unknown_address "n@example.com" "http://host/"
           example_world).
  reflexivity.
Defined.

Lemma emails_stay_unique_witness :
  NoDup (List.map user_email
           (db (signup plain_crypt example_backend carol_body "http://host/"
                       example_world).2)).
Proof.
  apply (emails_stay_unique symbolic_jose plain_crypt example_backend
           example_key same_second_clock carol_body "http://host/"
           "a@example.com" "secret" alice_refresh example_world).
  apply (bool_decide_unpack _). vm_compute. exact I.
Defined.

Lemma contact_reads_are_owned_witness :
  ann ∈ example_contacts ∧ contact_user_id ann = Some (user_id alice) ∧
  contact_id ann = 10.
Proof.
  apply (contact_reads_are_owned alice example_contacts ann).
  reflexivity.
Defined.

Lemma get_contacts_selects_witness :
  ben ∈ repository_contacts.get_contacts None (Some "Lee") None 0 100 alice
          example_contacts.
Proof.
  apply (get_contacts_selects None (Some "Lee") None 100 alice example_contacts
           ben).
  - vm_compute. lia.
  - split; [apply (bool_decide_unpack _); vm_compute; exact I|].
    split; [reflexivity|].
    split; [intros f [=]|]. split; [intros l [= <-]; reflexivity | intros e [=]].
Defined.

Lemma foreign_contact_out_of_reach_witness :
  routes_contacts.read_contact 12 alice example_contacts =
    Raise (HTTPException 404 "Contact not found" []) ∧
  routes_contacts.update_contact ann_body 12 alice example_contacts =
    (Raise (HTTPException 404 "Contact not found" []), example_contacts) ∧
  routes_contacts.remove_contact 12 alice example_contacts =
    (Raise (HTTPException 404 "Contact not found" []), example_contacts) ∧
  cyd ∈ (routes_contacts.update_contact ann_body 10 alice example_contacts).2 ∧
  cyd ∈ (routes_contacts.remove_contact 10 alice example_contacts).2.
Proof.
  apply (foreign_contact_out_of_reach alice example_contacts cyd 10 ann_body).
  - apply (bool_decide_unpack _). vm_compute. exact I.
  - apply (bool_decide_unpack _). vm_compute. exact I.
  - discriminate.
Defined.

Lemma create_contact_checked_witness :
  routes_contacts.create_contact 13 ben_body alice example_contacts =
    (Raise (HTTPException 409 "Email or phone number exists." []),
     example_contacts) ∧
  ∃ contact,
    routes_contacts.create_contact 13 dee_body alice example_contacts =
      (Ok (Committed contact), example_contacts ++ [contact]) ∧
    contact_id contact = 13 ∧
    contact_user_id contact = Some (user_id alice) ∧
    contact_email contact = Some (base_email dee_body) ∧
    contact_phone contact = base_phone dee_body ∧
    unique_contact_user (example_contacts ++ [contact]).
Proof.
  assert (Hunique : unique_contact_user example_contacts).
  { apply (bool_decide_unpack _). vm_compute. exact I. }
  split.
  - exact (create_contact_checked 13 ben_body alice example_contacts Hunique).
  - exact (create_contact_checked 13 dee_body alice example_contacts Hunique).
Defined.

Lemma update_contact_round_trip_witness :
  repository_contacts.get_contact 10 alice
    [write_contact ann_body ann; ben; cyd] = Some (write_contact ann_body ann).
Proof.
  apply (update_contact_round_trip 10 ann_body alice example_contacts
           (write_contact ann_body ann) [write_contact ann_body ann; ben; cyd]).
  vm_compute. reflexivity.
Defined.

Lemma update_contact_conflict_witness :
  routes_contacts.update_contact ben_body 10 alice example_contacts =
    (Ok (IntegrityError "unique_contact_user"), example_contacts).
Proof.
  apply (update_contact_conflict 10 ben_body alice example_contacts ann ben).
  - reflexivity.
  - apply (bool_decide_unpack _). vm_compute. exact I.
  - discriminate.
  - reflexivity.
  - reflexivity.
  - reflexivity.
Defined.

Lemma remove_contact_removes_witness :
  ann ∈ example_contacts ∧
  contact_id ann = 10 ∧
  repository_contacts.get_contact 10 alice [ben; cyd] = None ∧
  routes_contacts.remove_contact 10 alice [ben; cyd] =
    (Raise (HTTPException 404 "Contact not found" []), [ben; cyd]) ∧
  (∀ c, c ∈ [ben; cyd] ↔ c ∈ example_contacts ∧ contact_id c ≠ 10).
Proof.
  apply (remove_contact_removes 10 alice example_contacts ann [ben; cyd]).
  vm_compute. reflexivity.
Defined.

(** On 28 December the birthday of 2 January, five days on, is in the
    list. *)
Lemma birthdays_in_7_days_complete_witness :
  ann ∈ repository_contacts.birthdays_in_7_days (mkDate 2023 12 28) 0 3 alice
          example_contacts.
Proof.
  apply (birthdays_in_7_days_complete (mkDate 2023 12 28) 5 alice
           example_contacts ann (mkDate 1990 1 2)).
  - vm_compute. split; split; discriminate.
  - lia.
  - apply (bool_decide_unpack _). vm_compute. exact I.
  - reflexivity.
  - reflexivity.
  - reflexivity.
  - reflexivity.
Defined.
